(** * Firefly III dashboard: a shallow embedding of [app.py]

    The development follows the source file top-down: the transaction
    normalizer and the paginated fetcher of [FireflyClient], the month
    arithmetic, the three aggregation functions, [prepare_context] and the
    single-slot [DashboardCache]; [load_config] and the route [/] with its
    error handlers come after these.

    Conventions.
    - A Python [dict] used as a map is a [gmap]; the insertion-ordered
      [dict] inside [top_breakdown], whose order decides ties, is an
      association list.
    - A [Decimal] is the exact rational it denotes ([Qc]).  Python's decimal
      context rounds to 28 significant digits; the model covers amounts whose
      sums stay within that precision, and it has no [NaN] or [Infinity].
    - A [float] is an IEEE-754 binary64 value ([spec_float] with precision 53
      and maximal exponent 1024), computed by the Standard Library's
      executable specification of the floating-point operations.
    - Raising an exception is the [Raised] outcome; a loop that may not
      terminate takes fuel and answers [Diverged] when it runs out.
    - [Decimal(...)] and [dateutil]'s [isoparse] are parameters of the model
      (the class [PyLib]); the ledger API, the clocks and the order in which
      the three fetches complete are the [environment] of a refresh.
    - Dates are Python's: the years 1 to 9999, beyond which month arithmetic
      raises [ValueError].  [strftime("%Y")] is taken to write four digits.
    - Calls of [DashboardCache.get] are taken one at a time.
    - The configuration file is a YAML mapping whose entries have the types
      of the example configuration; [date.fromisoformat] is a parameter of
      [load_config].  The templates are taken to render. *)

From Stdlib Require Import ZArith QArith Qcanon Floats.SpecFloat Ascii String.
From Equations Require Import Equations.
From stdpp Require Import gmap strings list fin_maps sorting.

Local Open Scope Z_scope.

(** ** Exceptions and outcomes *)

Inductive error :=
  | HTTPError (status : Z)   (* [response.raise_for_status()] *)
  | ConnectionError          (* transport failure or timeout in [requests.get] *)
  | JSONDecodeError          (* [response.json()] *)
  | InvalidOperation         (* [Decimal(...)] on text that is no number *)
  | TypeError
  | ValueError
  | AttributeError
  | KeyError (key : string)
  | ZeroDivisionError.

Inductive outcome (A : Type) :=
  | Done (a : A)
  | Raised (e : error)
  | Diverged.

Arguments Done {A} a.

Arguments Raised {A} e.

Arguments Diverged {A}.

#[global] Instance outcome_ret : MRet outcome := fun A a => Done a.

#[global] Instance outcome_bind : MBind outcome := fun A B f m =>
  match m with
  | Done a => f a
  | Raised e => Raised e
  | Diverged => Diverged
  end.

#[global] Instance outcome_fmap : FMap outcome := fun A B f m =>
  match m with
  | Done a => Done (f a)
  | Raised e => Raised e
  | Diverged => Diverged
  end.

(** [for x in xs: ys.extend(f(x))], aborting at the first exception. *)
Fixpoint extend_each {A B} (f : A → outcome (list B)) (xs : list A)
    (ys : list B) : outcome (list B) :=
  match xs with
  | [] => Done ys
  | x :: xs' => new ← f x; extend_each f xs' (ys ++ new)
  end.

(** ** JSON object members

    [d.get(k)] is [None] both for a missing key and for a [null] value, while
    [d.get(k, default)] is the default only for a missing key. *)

Inductive member (A : Type) :=
  | Missing
  | Null
  | Val (a : A).

Arguments Missing {A}.

Arguments Null {A}.

Arguments Val {A} a.

Definition dict_get {A} (m : member A) : option A :=
  match m with Val a => Some a | _ => None end.

Definition dict_get_default {A} (m : member A) (default : A) : option A :=
  match m with Missing => Some default | Null => None | Val a => Some a end.

(** [x or default] on an optional string: [None] and [""] are falsy. *)
Definition or_else (x : option string) (default : string) : string :=
  match x with
  | None => default
  | Some s => if decide (s = "") then default else s
  end.

(** ** Dates *)

Record date := mkdate { year : Z; month : Z; day : Z }.

#[global] Instance date_eq_dec : EqDecision date.
Proof. solve_decision. Defined.

Definition MINYEAR : Z := 1.

Definition MAXYEAR : Z := 9999.

Definition isleap (y : Z) : bool :=
  (y mod 4 =? 0) && (negb (y mod 100 =? 0) || (y mod 400 =? 0)).

Definition days_in_month (y m : Z) : Z :=
  if m =? 2 then (if isleap y then 29 else 28)
  else if (m =? 4) || (m =? 6) || (m =? 9) || (m =? 11) then 30
  else 31.

(** The dates the [date] constructor accepts. *)
Definition valid_date (d : date) : Prop :=
  MINYEAR ≤ year d ≤ MAXYEAR ∧ 1 ≤ month d ≤ 12 ∧
  1 ≤ day d ≤ days_in_month (year d) (month d).

(** [a <= b] on dates. *)
Definition date_le (a b : date) : bool :=
  (year a <? year b) ||
  ((year a =? year b) &&
   ((month a <? month b) || ((month a =? month b) && (day a <=? day b)))).

Record datetime := mkdatetime {
  dt_date : date;            (* [.date()] *)
  dt_micros : Z;             (* time of day *)
  dt_utcoffset : option Z    (* [None] for a naive value *)
}.

(** [value.replace(day=1)] *)
Definition month_start (value : date) : date :=
  mkdate (year value) (month value) 1.

(** [dt + relativedelta(months=1)]: dateutil moves to the next month, clips the
    day to that month's length and builds the result with [dt.replace], which
    raises [ValueError] once the year leaves [MINYEAR..MAXYEAR]. *)
Definition add_one_month (dt : date) : outcome date :=
  let m := month dt + 1 in
  let y' := if 12 <? m then year dt + 1 else year dt in
  let m' := if 12 <? m then m - 12 else m in
  let d' := Z.min (days_in_month y' m') (day dt) in
  if (MINYEAR <=? y') && (y' <=? MAXYEAR) then Done (mkdate y' m' d')
  else Raised ValueError.

(** The months of the calendar counted from year 0: consecutive months have
    consecutive ordinals. *)
Definition month_ordinal (d : date) : Z := year d * 12 + month d.

(** *** [strftime]

    [%Y] is the year in four digits, [%m], [%d], [%H] and [%M] take two. *)

Definition digit (n : Z) : ascii := ascii_of_nat (48 + Z.to_nat (n mod 10)).

Definition pad2 (n : Z) (rest : string) : string :=
  String (digit (n / 10)) (String (digit n) rest).

Definition pad4 (n : Z) (rest : string) : string :=
  String (digit (n / 1000)) (String (digit (n / 100)) (pad2 n rest)).

(** [d.strftime("%Y-%m")] *)
Definition strftime_Ym (d : date) : string :=
  pad4 (year d) (String "-" (pad2 (month d) "")).

(** [d.strftime("%Y-%m-%d")] *)
Definition strftime_Ymd (d : date) : string :=
  pad4 (year d) (String "-" (pad2 (month d) (String "-" (pad2 (day d) "")))).

(** [d.isoformat()] *)
Definition isoformat (d : date) : string := strftime_Ymd d.

(** ** Decimals and floats *)

Definition prec : Z := 53.

Definition emax : Z := 1024.

Abbreviation float := spec_float.

Definition float_zero : float := S754_zero false.

(** An integer as an (unrounded) binary number. *)
Definition Z2SF (z : Z) : float :=
  match z with
  | Z0 => S754_zero false
  | Zpos p => S754_finite false p 0
  | Zneg p => S754_finite true p 0
  end.

(** [float(d)] for a [Decimal] [d]: the binary64 value nearest to the
    rational, obtained by one correctly rounded division. *)
Definition float_of_decimal (d : Qc) : float :=
  SFdiv prec emax (Z2SF (Qnum d)) (Z2SF (Zpos (Qden d))).

(** [float(n)] for an [int] [n]. *)
Definition float_of_int (n : Z) : float :=
  binary_normalize prec emax n 0 false.

Definition float_sub (x y : float) : float := SFsub prec emax x y.

Definition float_add (x y : float) : float := SFadd prec emax x y.

(** [x / n] for a float [x] and an int [n]. *)
Definition float_div_int (x : float) (n : Z) : outcome float :=
  if n =? 0 then Raised ZeroDivisionError
  else Done (SFdiv prec emax x (float_of_int n)).

(** [sum(xs, Decimal("0"))] *)
Definition decimal_sum (xs : list Qc) : Qc := foldl Qcplus 0%Qc xs.

(** [abs(d)] *)
Definition decimal_abs (d : Qc) : Qc :=
  if Qclt_le_dec d 0%Qc then (- d)%Qc else d.

(** ** The ledger API and the Python libraries around the program

    The shapes below are the response of the transactions endpoint as the
    program reads it:
    [{data: [{attributes: {description, transactions: [...]}}],
      meta: {pagination: {total_pages}}}]. *)

Record raw_transaction := {
  transaction_journal_id : member string;
  raw_amount : member string;      (* the text [str(...)] gives for the value *)
  raw_date : member string;
  category_name : member string;
  source_name : member string;
  destination_name : member string;
  currency_code : member string;
  foreign_currency_code : member string
}.

Record attributes_obj := {
  raw_description : member string;
  raw_transactions : member (list raw_transaction)
}.

Record group_obj := { raw_attributes : member attributes_obj }.

Record pagination_obj := { total_pages : member Z }.

Record meta_obj := { pagination : member pagination_obj }.

Record payload := {
  data : member (list group_obj);
  meta : member meta_obj
}.

(** One page request: the endpoint, the bearer header and the query
    parameters. *)
Record request := {
  req_endpoint : string;
  req_authorization : string;
  req_type : string;
  req_start : string;
  req_end : string;
  req_limit : Z;
  req_page : Z
}.

(** What [requests.get], [raise_for_status] and [response.json()] make of one
    request: an exception or the decoded payload. *)
Inductive response :=
  | Failure (e : error)
  | Success (p : payload).

(** The two parsers the normalizer calls: [Decimal(text)], which answers
    [None] where Python raises [InvalidOperation], and
    [dateutil.parser.isoparse(text)], [None] where it raises [ValueError]. *)
Class PyLib := {
  Decimal : string → option Qc;
  isoparse : string → option datetime
}.

(** ** [FireflyClient] *)

Record AppConfig := {
  api_base_url : string;
  api_token : string;
  cache_ttl_minutes : Z;
  months : option Z;
  period_start : option date;
  period_end : option date
}.

Record FireflyClient := {
  base_url : string;
  authorization : string     (* the [Authorization] header *)
}.

(** [FireflyClient(config)] *)
Definition new_client (config : AppConfig) : FireflyClient :=
  {| base_url := api_base_url config;
     authorization := "Bearer " +:+ api_token config |}.

(** A normalized transaction, the [dict] that [_parse_group] yields. *)
Record record := {
  tx_id : option string;
  tx_type : string;
  booked_at : datetime;
  amount : Qc;
  currency : string;
  category : string;
  source : string;
  destination : string;
  description : option string
}.

Definition uncategorized : string := "未分类".

Definition unknown_account : string := "未知账户".

(** The number of pages that the metadata of a payload reports. *)
Definition reported_pages (p : payload) : option Z :=
  m ← dict_get (meta p);
  pg ← dict_get (pagination m);
  dict_get (total_pages pg).

(** The payload carries no [meta], no [pagination] or no [total_pages]. *)
Definition pagination_absent (p : payload) : Prop :=
  meta p = Missing ∨
  ∃ m, meta p = Val m ∧
       (pagination m = Missing ∨
        ∃ pg, pagination m = Val pg ∧ total_pages pg = Missing).

Section Client.

Context `{PyLib}.

(** [Decimal(str(transaction.get("amount", "0")))]; a [null] amount is the
    text ["None"]. *)
Definition parse_amount (transaction : raw_transaction) : outcome Qc :=
  let text := default "None" (dict_get_default (raw_amount transaction) "0") in
  match Decimal text with
  | Some d => Done d
  | None => Raised InvalidOperation
  end.

(** [parser.isoparse(transaction.get("date"))] *)
Definition parse_date (transaction : raw_transaction) : outcome datetime :=
  match dict_get (raw_date transaction) with
  | None => Raised TypeError
  | Some text =>
      match isoparse text with
      | Some dt => Done dt
      | None => Raised ValueError
      end
  end.

(** The body of the loop of [_parse_group], for one split transaction. *)
Definition parse_transaction (description : option string)
    (transaction_type : string) (transaction : raw_transaction)
    : outcome record :=
  amount ← parse_amount transaction;
  let amount := decimal_abs amount in
  booked_at ← parse_date transaction;
  let category := or_else (dict_get (category_name transaction)) uncategorized in
  let source := or_else (dict_get (source_name transaction)) unknown_account in
  let destination :=
    or_else (dict_get (destination_name transaction)) unknown_account in
  Done {|
    tx_id := dict_get (transaction_journal_id transaction);
    tx_type := transaction_type;
    booked_at := booked_at;
    amount := amount;
    currency :=
      or_else (dict_get (currency_code transaction))
        (or_else (dict_get (foreign_currency_code transaction)) "");
    category := category;
    source := source;
    destination := destination;
    description := description
  |}.

Fixpoint parse_transactions (description : option string)
    (transaction_type : string) (transactions : list raw_transaction)
    : outcome (list record) :=
  match transactions with
  | [] => Done []
  | transaction :: rest =>
      r ← parse_transaction description transaction_type transaction;
      rs ← parse_transactions description transaction_type rest;
      Done (r :: rs)
  end.

(** [_parse_group], consumed to the end by [transactions.extend]. *)
Definition _parse_group (group : group_obj) (transaction_type : string)
    : outcome (list record) :=
  match dict_get_default (raw_attributes group)
          {| raw_description := Missing; raw_transactions := Missing |} with
  | None => Raised AttributeError
  | Some attributes =>
      match dict_get_default (raw_transactions attributes) [] with
      | None => Raised TypeError
      | Some transactions =>
          parse_transactions
            (dict_get_default (raw_description attributes) "")
            transaction_type transactions
      end
  end.

(** [payload.get("meta", {}).get("pagination", {}).get("total_pages", page)] *)
Definition total_pages_or (p : payload) (page : Z) : outcome Z :=
  match dict_get_default (meta p) {| pagination := Missing |} with
  | None => Raised AttributeError
  | Some m =>
      match dict_get_default (pagination m) {| total_pages := Missing |} with
      | None => Raised AttributeError
      | Some pg =>
          match dict_get_default (total_pages pg) page with
          | None => Raised TypeError
          | Some n => Done n
          end
      end
  end.

Section Fetch.

Variable api : request → response.

Variable self : FireflyClient.

Variables (transaction_type : string) (start_date end_date : date).

Variable page_size : Z.

Definition params (page : Z) : request :=
  {| req_endpoint := base_url self +:+ "/api/v1/transactions";
     req_authorization := authorization self;
     req_type := transaction_type;
     req_start := isoformat start_date;
     req_end := isoformat end_date;
     req_limit := page_size;
     req_page := page |}.

(** One round of the [while True] loop: the request, the records of the
    page appended to [transactions], and whether the loop goes on. *)
Definition fetch_page (page : Z) (transactions : list record)
    : outcome (list record * bool) :=
  match api (params page) with
  | Failure e => Raised e
  | Success p =>
      match dict_get_default (data p) [] with
      | None => Raised TypeError
      | Some groups =>
          transactions ←
            extend_each (fun g => _parse_group g transaction_type)
              groups transactions;
          total ← total_pages_or p page;
          Done (transactions, page >=? total)
      end
  end.

(** The loop, together with the requests it has issued so far. *)
Fixpoint fetch_loop (fuel : nat) (page : Z) (transactions : list record)
    (log : list request) : outcome (list record) * list request :=
  match fuel with
  | O => (Diverged, log)
  | S fuel' =>
      let log := log ++ [params page] in
      match fetch_page page transactions with
      | Done (transactions, stop) =>
          if stop then (Done transactions, log)
          else fetch_loop fuel' (page + 1) transactions log
      | Raised e => (Raised e, log)
      | Diverged => (Diverged, log)
      end
  end.

Definition fetch_transactions_log (fuel : nat)
    : outcome (list record) * list request :=
  fetch_loop fuel 1 [] [].

Definition fetch_transactions (fuel : nat) : outcome (list record) :=
  fst (fetch_transactions_log fuel).

(** The records of one page, normalized. *)
Definition page_records (page : Z) : outcome (list record) :=
  match api (params page) with
  | Failure e => Raised e
  | Success p =>
      match dict_get_default (data p) [] with
      | None => Raised TypeError
      | Some groups =>
          extend_each (fun g => _parse_group g transaction_type) groups []
      end
  end.

End Fetch.

End Client.

(** ** Month sequences *)

(** What is left of the loop of [month_sequence]: the years up to the end
    year, then the months up to December. *)
Definition months_left (current end_month : date) : nat :=
  (Z.to_nat ((year end_month - year current + 1) * 14) +
   Z.to_nat (12 - month current))%nat.

(** A value together with the equation that it is the value of its
    expression, for the branches of the loop below. *)
Definition inspect {A} (a : A) : {b : A | a = b} := exist _ a eq_refl.

(** The [while current <= end_month] loop; [months] holds what has been
    appended after [current]. *)
Equations? month_loop (current end_month : date) : outcome (list date)
    by wf (months_left current end_month) lt :=
  month_loop current end_month with inspect (date_le current end_month) => {
    | exist _ true Hle with inspect (add_one_month current) => {
        | exist _ (Done next) Hnext =>
            months ← month_loop (month_start next) end_month;
            Done (current :: months)
        | exist _ (Raised e) _ => Raised e
        | exist _ Diverged _ => Diverged }
    | exist _ false _ => Done [] }.
Proof.
  unfold months_left, month_start. cbn [year month].
  assert (year current ≤ year end_month) as Hyear.
  { unfold date_le in Hle.
    destruct (Z.ltb_spec (year current) (year end_month)); [lia|].
    destruct (Z.eqb_spec (year current) (year end_month)); [lia|done]. }
  unfold add_one_month in Hnext.
  destruct ((MINYEAR <=? _) && (_ <=? MAXYEAR)); [|done].
  injection Hnext as <-. cbn [year month].
  destruct (Z.ltb_spec 12 (month current + 1)); lia.
Qed.

Definition month_sequence (start end_ : date) : outcome (list date) :=
  month_loop (month_start start) (month_start end_).

(** ** Aggregation *)

Definition month_key (tx : record) : string :=
  strftime_Ym (month_start (dt_date (booked_at tx))).

(** [buckets[key][tx_type] += amount] on the two-level [defaultdict]. *)
Definition bucket_add (buckets : gmap string (gmap string Qc))
    (key tx_type : string) (amount : Qc) : gmap string (gmap string Qc) :=
  let bucket := default ∅ (buckets !! key) in
  <[key := <[tx_type := (default 0 (bucket !! tx_type) + amount)%Qc]> bucket]>
    buckets.

(** The first loop of [aggregate_monthly]. *)
Definition fill_buckets (transactions : gmap string (list record))
    : gmap string (gmap string Qc) :=
  map_fold
    (fun tx_type items buckets =>
       foldl (fun buckets tx =>
                bucket_add buckets (month_key tx) tx_type (amount tx))
         buckets items)
    ∅ transactions.

(** [buckets[key].get(tx_type, Decimal("0"))] *)
Definition bucket_get (buckets : gmap string (gmap string Qc))
    (key tx_type : string) : Qc :=
  default 0%Qc (default ∅ (buckets !! key) !! tx_type).

(** The [Decimal] values of one round of the second loop. *)
Record month_row := {
  row_key : string;
  row_withdrawal : Qc;
  row_deposit : Qc;
  row_transfer : Qc
}.

Definition month_rows (buckets : gmap string (gmap string Qc))
    (months : list date) : list month_row :=
  (fun month =>
     let key := strftime_Ym month in
     {| row_key := key;
        row_withdrawal := bucket_get buckets key "withdrawal";
        row_deposit := bucket_get buckets key "deposit";
        row_transfer := bucket_get buckets key "transfer" |}) <$> months.

(** The [dict] that [aggregate_monthly] returns. *)
Record monthly_series := {
  series_withdrawal : list float;
  series_deposit : list float;
  series_transfer : list float;
  series_net : list float;
  series_labels : list string
}.

Definition aggregate_monthly (transactions : gmap string (list record))
    (months : list date) : monthly_series :=
  let rows := month_rows (fill_buckets transactions) months in
  {| series_withdrawal := (fun r => float_of_decimal (row_withdrawal r)) <$> rows;
     series_deposit := (fun r => float_of_decimal (row_deposit r)) <$> rows;
     series_transfer := (fun r => float_of_decimal (row_transfer r)) <$> rows;
     series_net :=
       (fun r => float_of_decimal (row_deposit r - row_withdrawal r)%Qc) <$> rows;
     series_labels := row_key <$> rows |}.

(** [sum((tx["amount"] for tx in items), Decimal("0"))] *)
Definition total_amount (items : list record) : Qc :=
  decimal_sum (amount <$> items).

Definition aggregate_totals (transactions : gmap string (list record))
    : gmap string float :=
  let totals := (fun items => float_of_decimal (total_amount items)) <$> transactions in
  <["net" := float_sub (default float_zero (totals !! "deposit"))
               (default float_zero (totals !! "withdrawal"))]> totals.

(** *** [top_breakdown] *)

(** The text-valued keys of a record. *)
Inductive text_key :=
  | KId | KType | KCurrency | KCategory | KSource | KDestination | KDescription.

(** [tx.get(key)] *)
Definition tx_get (tx : record) (key : text_key) : option string :=
  match key with
  | KId => tx_id tx
  | KType => Some (tx_type tx)
  | KCurrency => Some (currency tx)
  | KCategory => Some (category tx)
  | KSource => Some (source tx)
  | KDestination => Some (destination tx)
  | KDescription => description tx
  end.

(** [tx.get(key) or "未分类"] *)
Definition label_of (key : text_key) (tx : record) : string :=
  or_else (tx_get tx key) uncategorized.

(** [totals[label] += amount] on the [defaultdict(Decimal)], which keeps its
    keys in the order of their first insertion. *)
Fixpoint totals_add (totals : list (string * Qc)) (label : string)
    (amount : Qc) : list (string * Qc) :=
  match totals with
  | [] => [(label, (0 + amount)%Qc)]
  | (name, total) :: rest =>
      if decide (name = label) then (name, (total + amount)%Qc) :: rest
      else (name, total) :: totals_add rest label amount
  end.

Definition group_totals (key : text_key) (items : list record)
    : list (string * Qc) :=
  foldl (fun totals tx => totals_add totals (label_of key tx) (amount tx))
    [] items.

(** [sorted(pairs, key=lambda pair: pair[1], reverse=True)]: Python's sort is
    stable, also with [reverse=True], so a pair goes in front of the first
    pair whose amount is not greater than its own. *)
Fixpoint insert_desc (p : string * Qc) (sorted : list (string * Qc))
    : list (string * Qc) :=
  match sorted with
  | [] => [p]
  | q :: rest =>
      if Qclt_le_dec (snd p) (snd q) then q :: insert_desc p rest
      else p :: q :: rest
  end.

Definition sorted_desc (pairs : list (string * Qc)) : list (string * Qc) :=
  foldr insert_desc [] pairs.

(** [l[:limit]]; a negative limit counts from the end. *)
Definition slice_to {A} (l : list A) (limit : Z) : list A :=
  if limit <? 0 then take (length l - Z.to_nat (- limit)) l
  else take (Z.to_nat limit) l.

(** The ranked [Decimal] totals, before the conversion to [float]. *)
Definition ranked_totals (items : list record) (key : text_key) (limit : Z)
    : list (string * Qc) :=
  slice_to (sorted_desc (group_totals key items)) limit.

Definition top_breakdown (items : list record) (key : text_key) (limit : Z)
    : list (string * float) :=
  (fun pair => (fst pair, float_of_decimal (snd pair))) <$>
    ranked_totals items key limit.

Definition default_limit : Z := 5.

(** ** [prepare_context] *)

(** An instant is a naive UTC [datetime], counted in microseconds from
    1970-01-01T00:00:00: adding a [timedelta] and comparing two instants are
    integer addition and comparison.  The ends of Python's [datetime] and
    [timedelta] ranges are left out. *)
Definition instant : Type := Z.

(** [timedelta(minutes=n)] *)
Definition timedelta_minutes (n : Z) : Z := n * 60000000.

Definition micros_per_day : Z := 86400000000.

(** The civil date of a day number (days from 1970-01-01). *)
Definition civil_from_days (days : Z) : date :=
  let z := days + 719468 in
  let era := z / 146097 in
  let doe := z - era * 146097 in
  let yoe := (doe - doe / 1460 + doe / 36524 - doe / 146096) / 365 in
  let doy := doe - (365 * yoe + yoe / 4 - yoe / 100) in
  let mp := (5 * doy + 2) / 153 in
  let d := doy - (153 * mp + 2) / 5 + 1 in
  let m := if mp <? 10 then mp + 3 else mp - 9 in
  mkdate (yoe + era * 400 + (if m <=? 2 then 1 else 0)) m d.

(** [t.strftime("%Y-%m-%d %H:%M UTC")] *)
Definition strftime_display (t : instant) : string :=
  let d := civil_from_days (t / micros_per_day) in
  let seconds := (t mod micros_per_day) / 1000000 in
  pad4 (year d) (String "-" (pad2 (month d) (String "-" (pad2 (day d)
    (String " " (pad2 (seconds / 3600)
      (String ":" (pad2 (seconds / 60 mod 60) " UTC")))))))).

(** What the program reads from outside during one refresh: the ledger API,
    the two clocks, and the order in which [as_completed] hands out the
    three futures (a permutation of the three transaction types). *)
Record environment := {
  api : request → response;
  today : date;
  utcnow : instant;
  completed : list string
}.

(** The [dict] built by [prepare_context]; [DashboardCache.get] adds the last
    two entries. *)
Record context := {
  monthly_labels : list string;
  monthly_withdrawals : list float;
  monthly_deposits : list float;
  monthly_transfers : list float;
  monthly_net : list float;
  totals : gmap string float;
  average_withdrawal : float;
  average_deposit : float;
  average_net : float;
  top_spending_categories : list (string * float);
  top_income_categories : list (string * float);
  top_source_accounts : list (string * float);
  top_destination_accounts : list (string * float);
  top_transfer_accounts : list (string * float);
  last_updated : instant;
  date_range : string * string;
  ctx_months : Z;
  ctx_cache_ttl_minutes : option Z;
  last_updated_display : option string
}.

Definition is_diverged {A} (o : outcome A) : bool :=
  match o with Diverged => true | _ => false end.

(** [d[key]] *)
Definition lookup_key {A} (d : gmap string A) (key : string) : outcome A :=
  match d !! key with
  | Some a => Done a
  | None => Raised (KeyError key)
  end.

Definition submitted : list string := ["withdrawal"; "deposit"; "transfer"].

(** [for future in as_completed(future_map):
       transactions[future_map[future]] = future.result()] *)
Fixpoint collect_results (future : string → outcome (list record))
    (order : list string) (transactions : gmap string (list record))
    : outcome (gmap string (list record)) :=
  match order with
  | [] => Done transactions
  | tx_type :: rest =>
      items ← future tx_type;
      collect_results future rest (<[tx_type := items]> transactions)
  end.

(** The [with ThreadPoolExecutor(...)] block.  Leaving the block waits for
    every submitted fetch, so one fetch that never ends keeps the block from
    ending; otherwise the first failed future in completion order raises. *)
Definition run_fetches (future : string → outcome (list record))
    (order : list string) : outcome (gmap string (list record)) :=
  if existsb (fun tx_type => is_diverged (future tx_type)) submitted
  then Diverged
  else collect_results future order ∅.

Section Dashboard.

Context `{PyLib}.

Definition prepare_context (fuel : nat) (env : environment)
    (config : AppConfig) : outcome context :=
  let start_date :=
    default (mkdate (year (today env)) 1 1) (period_start config) in
  let end_date := default (today env) (period_end config) in
  months ← month_sequence start_date end_date;
  let months :=
    match months with [] => [month_start start_date] | _ => months end in
  let client := new_client config in
  transactions ←
    run_fetches
      (fun tx_type =>
         fetch_transactions (api env) client tx_type start_date end_date
           100 fuel)
      (completed env);
  let monthly_series := aggregate_monthly transactions months in
  let totals := aggregate_totals transactions in
  let month_count := Z.of_nat (length months) `max` 1 in
  average_withdrawal ←
    float_div_int (default float_zero (totals !! "withdrawal")) month_count;
  average_deposit ←
    float_div_int (default float_zero (totals !! "deposit")) month_count;
  average_net ←
    float_div_int (default float_zero (totals !! "net")) month_count;
  withdrawals ← lookup_key transactions "withdrawal";
  deposits ← lookup_key transactions "deposit";
  transfers ← lookup_key transactions "transfer";
  Done {|
    monthly_labels := series_labels monthly_series;
    monthly_withdrawals := series_withdrawal monthly_series;
    monthly_deposits := series_deposit monthly_series;
    monthly_transfers := series_transfer monthly_series;
    monthly_net := series_net monthly_series;
    totals := totals;
    average_withdrawal := average_withdrawal;
    average_deposit := average_deposit;
    average_net := average_net;
    top_spending_categories := top_breakdown withdrawals KCategory default_limit;
    top_income_categories := top_breakdown deposits KCategory default_limit;
    top_source_accounts := top_breakdown withdrawals KSource default_limit;
    top_destination_accounts :=
      top_breakdown deposits KDestination default_limit;
    top_transfer_accounts :=
      top_breakdown transfers KDestination default_limit;
    last_updated := utcnow env;
    date_range := (strftime_Ymd start_date, strftime_Ymd end_date);
    ctx_months := Z.of_nat (length months);
    ctx_cache_ttl_minutes := None;
    last_updated_display := None
  |}.

(** ** [DashboardCache] *)

Record CacheEntry := { value : context; expires_at : instant }.

(** The single slot; calls are taken one at a time, so the lock has no
    part in the model. *)
Record DashboardCache := { _entry : option CacheEntry }.

(** [DashboardCache()] *)
Definition new_cache : DashboardCache := {| _entry := None |}.

(** What one call of [get] leaves behind: what it returned or raised, the
    cache afterwards, and how many times it ran [prepare_context]. *)
Record get_result := {
  returned : outcome context;
  cache_after : DashboardCache;
  pipeline_runs : nat
}.

(** The guarded read at the head of [get]:
    [not force_refresh and self._entry and self._entry.expires_at > now]. *)
Definition fresh_value (self : DashboardCache) (force_refresh : bool)
    (now : instant) : option context :=
  match _entry self with
  | Some entry =>
      if negb force_refresh && (expires_at entry >? now)
      then Some (value entry) else None
  | None => None
  end.

(** The two entries [get] writes into the new context. *)
Definition stamp (config : AppConfig) (ctx : context) : context :=
  {| monthly_labels := monthly_labels ctx;
     monthly_withdrawals := monthly_withdrawals ctx;
     monthly_deposits := monthly_deposits ctx;
     monthly_transfers := monthly_transfers ctx;
     monthly_net := monthly_net ctx;
     totals := totals ctx;
     average_withdrawal := average_withdrawal ctx;
     average_deposit := average_deposit ctx;
     average_net := average_net ctx;
     top_spending_categories := top_spending_categories ctx;
     top_income_categories := top_income_categories ctx;
     top_source_accounts := top_source_accounts ctx;
     top_destination_accounts := top_destination_accounts ctx;
     top_transfer_accounts := top_transfer_accounts ctx;
     last_updated := last_updated ctx;
     date_range := date_range ctx;
     ctx_months := ctx_months ctx;
     ctx_cache_ttl_minutes := Some (cache_ttl_minutes config);
     last_updated_display := Some (strftime_display (last_updated ctx)) |}.

Definition get (self : DashboardCache) (fuel : nat) (env : environment)
    (config : AppConfig) (force_refresh : bool) (now : instant)
    : get_result :=
  let ttl := timedelta_minutes (cache_ttl_minutes config) in
  match fresh_value self force_refresh now with
  | Some cached =>
      {| returned := Done cached; cache_after := self; pipeline_runs := 0 |}
  | None =>
      match prepare_context fuel env config with
      | Done ctx =>
          let expires_at := now + ttl in
          let ctx := stamp config ctx in
          {| returned := Done ctx;
             cache_after :=
               {| _entry := Some {| value := ctx; expires_at := expires_at |} |};
             pipeline_runs := 1 |}
      | Raised e =>
          {| returned := Raised e; cache_after := self; pipeline_runs := 1 |}
      | Diverged =>
          {| returned := Diverged; cache_after := self; pipeline_runs := 1 |}
      end
  end.

End Dashboard.

(** ** Vocabulary of the properties *)

(** A year and a month of the calendar; every valid date has them. *)
Definition in_year_range (d : date) : Prop :=
  MINYEAR ≤ year d ≤ MAXYEAR ∧ 1 ≤ month d ≤ 12.

(** The first day of the month with a given ordinal. *)
Definition month_of_ordinal (o : Z) : date :=
  mkdate ((o - 1) / 12) ((o - 1) mod 12 + 1) 1.

(** The ordinals of January of year 1 and of December 9999. *)
Definition first_ordinal : Z := MINYEAR * 12 + 1.

Definition last_ordinal : Z := MAXYEAR * 12 + 12.

(** The number of calendar months from the month of [start] to the month of
    [end_]. *)
Definition month_count (start end_ : date) : Z :=
  month_ordinal end_ - month_ordinal start + 1.

(** The amounts of the records of one month. *)
Definition month_total (key : string) (items : list record) : Qc :=
  total_amount (filter (fun tx => month_key tx = key) items).

(** [sum(xs)] on floats, from the left. *)
Definition float_sum (xs : list float) : float := foldl float_add float_zero xs.

(** The months of the list hold every record of the list. *)
Definition covers (months : list date) (items : list record) : Prop :=
  Forall (fun tx => month_key tx ∈ strftime_Ym <$> months) items.

#[global] Instance covers_dec months items : Decision (covers months items).
Proof. unfold covers. apply _. Defined.


(** [totals.get(label)] on the ordered dictionary. *)
Fixpoint totals_get (totals : list (string * Qc)) (label : string)
    : option Qc :=
  match totals with
  | [] => None
  | (name, total) :: rest =>
      if decide (name = label) then Some total else totals_get rest label
  end.

(** The amounts of the records that carry one label. *)
Definition label_total (key : text_key) (items : list record) (label : string)
    : Qc :=
  total_amount (filter (fun tx => label_of key tx = label) items).



(** A member that is missing, [null] or the empty string. *)
Definition blank (m : member string) : Prop :=
  m = Missing ∨ m = Null ∨ m = Val "".

(** The months that [prepare_context] aggregates over. *)
Definition context_months (start_date end_date : date)
    : outcome (list date) :=
  months ← month_sequence start_date end_date;
  Done (match months with [] => [month_start start_date] | _ => months end).

(** The two ends of the range that [prepare_context] resolves. *)
Definition start_date_of (env : environment) (config : AppConfig) : date :=
  default (mkdate (year (today env)) 1 1) (period_start config).

Definition end_date_of (env : environment) (config : AppConfig) : date :=
  default (today env) (period_end config).

(** ** A small instance of the environment

    Stand-ins for the two library parsers, enough to run the program on
    concrete payloads: plain decimal numerals (an optional sign, digits, an
    optional fraction) and timestamps that start with [YYYY-MM-DD]. *)

Module Sample.

Definition digit_value (c : ascii) : option Z :=
  let n := Z.of_nat (nat_of_ascii c) in
  if (48 <=? n) && (n <=? 57) then Some (n - 48) else None.

Fixpoint numeral (s : string) (mantissa : Z) (scale : positive)
    (fraction : bool) (digits : nat) : option Qc :=
  match s with
  | EmptyString =>
      match digits with O => None | _ => Some (Q2Qc (mantissa # scale)) end
  | String c rest =>
      if decide (c = "."%char) then
        if fraction then None else numeral rest mantissa scale true digits
      else
        match digit_value c with
        | Some d =>
            numeral rest (mantissa * 10 + d)
              (if fraction then scale * 10 else scale)%positive
              fraction (S digits)
        | None => None
        end
  end.

Definition plain_decimal (s : string) : option Qc :=
  match s with
  | String "-" rest => Qcopp <$> numeral rest 0 1 false 0
  | _ => numeral s 0 1 false 0
  end.

Fixpoint number (n : nat) (s : string) (acc : Z) : option (Z * string) :=
  match n, s with
  | O, _ => Some (acc, s)
  | S n', String c rest =>
      match digit_value c with
      | Some d => number n' rest (acc * 10 + d)
      | None => None
      end
  | S _, EmptyString => None
  end.

Definition dash (s : string) : option string :=
  match s with
  | String "-" rest => Some rest
  | _ => None
  end.

Definition date_prefix (s : string) : option datetime :=
  '(y, s) ← number 4 s 0;
  s ← dash s;
  '(m, s) ← number 2 s 0;
  s ← dash s;
  '(d, _) ← number 2 s 0;
  if (MINYEAR <=? y) && (y <=? MAXYEAR) && (1 <=? m) && (m <=? 12) &&
     (1 <=? d) && (d <=? days_in_month y m)
  then Some (mkdatetime (mkdate y m d) 0 None)
  else None.

#[export] Instance lib : PyLib := 
  {| Decimal := plain_decimal; isoparse := date_prefix |}.

(** A split transaction with an amount, a date and a category. *)
Definition split (journal amount date category : string) : raw_transaction :=
  {| transaction_journal_id := Val journal;
     raw_amount := Val amount;
     raw_date := Val date;
     category_name := Val category;
     source_name := Val "Checking";
     destination_name := Val "Shop";
     currency_code := Val "EUR";
     foreign_currency_code := Null |}.

(** A transaction with nothing in it. *)
Definition empty_split : raw_transaction :=
  {| transaction_journal_id := Missing;
     raw_amount := Missing;
     raw_date := Missing;
     category_name := Missing;
     source_name := Missing;
     destination_name := Missing;
     currency_code := Missing;
     foreign_currency_code := Missing |}.

(** No amount, no category and no account names, but a date. *)
Definition bare_split : raw_transaction :=
  {| transaction_journal_id := Val "7";
     raw_amount := Missing;
     raw_date := Val "2024-03-09";
     category_name := Missing;
     source_name := Val "";
     destination_name := Null;
     currency_code := Missing;
     foreign_currency_code := Missing |}.

Definition group (transactions : list raw_transaction) : group_obj :=
  {| raw_attributes :=
       Val {| raw_description := Val "groceries";
              raw_transactions := Val transactions |} |}.

Definition page (groups : list group_obj) (pages : member Z) : payload :=
  {| data := Val groups;
     meta := Val {| pagination := Val {| total_pages := pages |} |} |}.

(** A ledger with two withdrawals and one deposit, each type on one page. *)
Definition ledger (r : request) : response :=
  if decide (req_type r = "withdrawal") then
    Success (page [group [split "1" "100" "2024-01-15" "Food";
                          split "3" "50" "2024-02-01" "Food"]] (Val 1))
  else if decide (req_type r = "deposit") then
    Success (page [group [split "2" "300" "2024-01-20" "Salary"]] (Val 1))
  else Success (page [] Missing).

(** Three pages of withdrawals, one record each; the third page holds a
    transaction without a date when [broken] is set. *)
Definition paged (broken : bool) (r : request) : response :=
  if decide (req_type r = "withdrawal") then
    if req_page r =? 1 then
      Success (page [group [split "1" "10" "2024-01-15" "Food"]] (Val 3))
    else if req_page r =? 2 then
      Success (page [group [split "2" "20" "2024-01-16" "Rent"]] (Val 3))
    else if req_page r =? 3 then
      Success (page [group [if broken then empty_split
                            else split "3" "30" "2024-01-17" "Food"]] (Val 3))
    else Failure (HTTPError 404)
  else Success (page [] Missing).

(** The first page announces three pages but carries a broken record. *)
Definition broken_first (r : request) : response :=
  Success (page [group [empty_split]] (Val 3)).

(** A ledger that always announces one more page. *)
Definition endless (r : request) : response :=
  Success (page [] (Val (req_page r + 1))).

Definition down (r : request) : response := Failure (HTTPError 503).

Definition config : AppConfig :=
  {| api_base_url := "https://ledger.example";
     api_token := "secret";
     cache_ttl_minutes := 10;
     months := None;
     period_start := Some (mkdate 2024 1 1);
     period_end := Some (mkdate 2024 2 28) |}.

Definition env (api : request → response) (utcnow : instant) : environment :=
  {| api := api;
     today := mkdate 2024 3 1;
     utcnow := utcnow;
     completed := ["deposit"; "transfer"; "withdrawal"] |}.

Definition client : FireflyClient := new_client config.

(** A normalized record, for the aggregation examples. *)
Definition tx (type : string) (on : date) (amount : Qc) (category : string)
    : record :=
  {| tx_id := None;
     tx_type := type;
     booked_at := mkdatetime on 0 None;
     amount := amount;
     currency := "EUR";
     category := category;
     source := "Checking";
     destination := "Shop";
     description := Some "" |}.

End Sample.

Module Example1.

Import Sample.

(** The records of the worked example: two withdrawals and a deposit. *)
Definition transactions : gmap string (list record) :=
  {[ "withdrawal" := [tx "withdrawal" (mkdate 2024 1 15) (Q2Qc 100) "Food";
                      tx "withdrawal" (mkdate 2024 2 1) (Q2Qc 50) "Food"];
     "deposit" := [tx "deposit" (mkdate 2024 1 20) (Q2Qc 300) "Salary"];
     "transfer" := [] ]}.

Definition months : list date := [mkdate 2024 1 1; mkdate 2024 2 1].


(** Deposits of 0.1 in January and 0.2 in February. *)
Definition dimes : gmap string (list record) :=
  {[ "withdrawal" := [];
     "deposit" := [tx "deposit" (mkdate 2024 1 20) (Q2Qc (1 # 10)) "Salary";
                   tx "deposit" (mkdate 2024 2 20) (Q2Qc (2 # 10)) "Salary"];
     "transfer" := [] ]}.

End Example1.

Module Example2.

Import Sample.

Definition january : date := mkdate 2024 1 1.

Definition february : date := mkdate 2024 2 28.

(** The payload and the records of a page of [paged false]. *)
Definition pages (q : Z) : payload :=
  match paged false (params client "withdrawal" january february 100 q) with
  | Success p => p
  | Failure _ => page [] Missing
  end.

Definition records (q : Z) : list record :=
  match page_records (paged false) client "withdrawal" january february
          100 q with
  | Done rs => rs
  | _ => []
  end.

(** A range that ends in December 9999. *)
Definition last_december : AppConfig :=
  {| api_base_url := "https://ledger.example";
     api_token := "secret";
     cache_ttl_minutes := 10;
     months := None;
     period_start := Some (mkdate 9999 12 1);
     period_end := Some (mkdate 9999 12 31) |}.

(** The snapshot of a refresh at instant 0. *)
Definition snapshot : context :=
  match prepare_context 1 (env ledger 0) config with
  | Done ctx => stamp config ctx
  | _ =>
      {| monthly_labels := []; monthly_withdrawals := [];
         monthly_deposits := []; monthly_transfers := []; monthly_net := [];
         totals := ∅; average_withdrawal := float_zero;
         average_deposit := float_zero; average_net := float_zero;
         top_spending_categories := []; top_income_categories := [];
         top_source_accounts := []; top_destination_accounts := [];
         top_transfer_accounts := []; last_updated := 0;
         date_range := ("", ""); ctx_months := 0;
         ctx_cache_ttl_minutes := None; last_updated_display := None |}
  end.

(** A cache whose entry expires at instant [expiry]. *)
Definition cache (expiry : instant) : DashboardCache :=
  {| _entry := Some {| value := snapshot; expires_at := expiry |} |}.

(** Two calls that are not forced, 6 microseconds apart, the second one
    with the clock of the pipeline at 7. *)
Definition first_call (expiry : instant) : get_result :=
  get (cache expiry) 1 (env ledger 0) config false 0.

Definition second_call (expiry : instant) : get_result :=
  get (cache_after (first_call expiry)) 1 (env ledger 7) config false 6.

(** Records with equal sums under different labels. *)
Definition ties : list record :=
  [tx "withdrawal" january (Q2Qc 5) "Rent";
   tx "withdrawal" january (Q2Qc 3) "Food";
   tx "withdrawal" january (Q2Qc 7) "Travel";
   tx "withdrawal" january (Q2Qc 2) "Food";
   tx "withdrawal" january (Q2Qc 5) "Books"].

End Example2.

(** ** The cache over a sequence of requests

    The application holds one [DashboardCache] for its whole life
    ([dashboard_cache]); every request calls [get] on the cache that the
    request before left behind. *)

Record call := {
  call_fuel : nat;
  call_env : environment;
  call_config : AppConfig;
  call_force_refresh : bool;
  call_now : instant
}.

Section History.

Context `{PyLib}.

Fixpoint get_all (self : DashboardCache) (calls : list call)
    : list get_result :=
  match calls with
  | [] => []
  | c :: rest =>
      let result :=
        get self (call_fuel c) (call_env c) (call_config c)
          (call_force_refresh c) (call_now c) in
      result :: get_all (cache_after result) rest
  end.

End History.

(** A context that carries the two entries [get] adds: the time to live and
    the display form of its own time stamp. *)
Definition stamped (ctx : context) : Prop :=
  is_Some (ctx_cache_ttl_minutes ctx) ∧
  last_updated_display ctx = Some (strftime_display (last_updated ctx)).

Definition well_stamped (self : DashboardCache) : Prop :=
  ∀ entry, _entry self = Some entry → stamped (value entry).

(** ** [load_config]

    The configuration file as the program reads it: a YAML mapping whose
    entries, where present, have the types of the example configuration,
    texts for the address and the token and integers for [months] and
    [cache_ttl_minutes]; the two ends of the period are YAML texts or dates,
    given as the text that [str(...)] makes of them.  An empty file is the
    mapping without entries. *)

Inductive period_entry :=
  | PeriodMapping (start end_ : member string)
  | PeriodOther (truthy : bool).   (* a value that is no mapping *)

Record raw_config := {
  raw_api_base_url : option string;
  raw_api_token : option string;
  raw_months : member Z;
  raw_period : member period_entry;
  raw_cache_ttl_minutes : member Z
}.

(** How [load_config] ends: with a value, with a [ConfigError] and its
    message, or with an exception that is no [ConfigError]. *)
Inductive loading (A : Type) :=
  | Loaded (a : A)
  | ConfigError (message : string)
  | Uncaught (e : error).

Arguments Loaded {A} a.

Arguments ConfigError {A} message.

Arguments Uncaught {A} e.

#[global] Instance loading_ret : MRet loading := fun A a => Loaded a.

#[global] Instance loading_bind : MBind loading := fun A B f m =>
  match m with
  | Loaded a => f a
  | ConfigError message => ConfigError message
  | Uncaught e => Uncaught e
  end.

(** [a < b] on dates. *)
Definition date_lt (a b : date) : bool :=
  (year a <? year b) ||
  ((year a =? year b) &&
   ((month a <? month b) || ((month a =? month b) && (day a <? day b)))).

(** [s.rstrip("/")] *)
Fixpoint rstrip_slash (s : string) : string :=
  match s with
  | EmptyString => EmptyString
  | String c rest =>
      match rstrip_slash rest with
      | EmptyString =>
          if decide (c = "/"%char) then EmptyString else String c EmptyString
      | stripped => String c stripped
      end
  end.

(** [dt - relativedelta(months=k)] for [k >= 0]: dateutil splits the months
    into years and up to eleven months, takes both off, borrows a year when
    the month falls below January, clips the day to the length of the month
    and builds the result with [dt.replace], which raises [ValueError] once
    the year leaves [MINYEAR..MAXYEAR]; nothing in [load_config] catches
    it. *)
Definition sub_months (dt : date) (k : Z) : loading date :=
  let years := k / 12 in
  let months := k mod 12 in
  let y := year dt - years in
  let m := month dt - months in
  let y' := if m <? 1 then y - 1 else y in
  let m' := if m <? 1 then m + 12 else m in
  let d' := Z.min (days_in_month y' m') (day dt) in
  if (MINYEAR <=? y') && (y' <=? MAXYEAR) then Loaded (mkdate y' m' d')
  else Uncaught ValueError.

(** [raw[key]] inside the [try] block that turns [KeyError] into
    [ConfigError]. *)
Definition required (entry : option string) (key : string) : loading string :=
  match entry with
  | Some text => Loaded text
  | None => ConfigError ("Configuration is missing required key: " +:+ key)
  end.

(** [int(raw.get("months"))] with its check; no entry and [null] give
    [None]. *)
Definition months_of (entry : member Z) : loading (option Z) :=
  match dict_get entry with
  | None => Loaded None
  | Some n =>
      if n <=? 0 then ConfigError "`months` must be a positive integer"
      else Loaded (Some n)
  end.

(** [raw.get("period", {}) or {}] with the [isinstance] check, and the two
    members [start] and [end] of the mapping. *)
Definition period_members (entry : member period_entry)
    : loading (member string * member string) :=
  match dict_get entry with
  | None => Loaded (Missing, Missing)
  | Some (PeriodMapping start end_) => Loaded (start, end_)
  | Some (PeriodOther truthy) =>
      if truthy
      then ConfigError "`period` must be a mapping with `start`/`end` keys"
      else Loaded (Missing, Missing)
  end.

(** [int(raw.get("cache_ttl_minutes", 10))] with its check; [int(None)]
    raises [TypeError]. *)
Definition cache_ttl_of (entry : member Z) : loading Z :=
  match dict_get_default entry 10 with
  | None => Uncaught TypeError
  | Some n =>
      if n <=? 0
      then ConfigError "`cache_ttl_minutes` must be a positive integer"
      else Loaded n
  end.

Section Config.

(** [date.fromisoformat(text)], [None] where it raises [ValueError]. *)
Variable fromisoformat : string → option date.

(** One end of the period: nothing for a value that is missing, [null] or
    empty, else the date that the text denotes. *)
Definition period_date (value : member string) (message : string)
    : loading (option date) :=
  match dict_get value with
  | None => Loaded None
  | Some text =>
      if decide (text = "") then Loaded None
      else
        match fromisoformat text with
        | Some d => Loaded (Some d)
        | None => ConfigError message
        end
  end.

(** The start of the period where the file gives none: the first day of the
    month [months - 1] months before the month of the end, or else the first
    of January of the year of the end. *)
Definition start_of_period (months : option Z) (reference_date : date)
    : loading date :=
  match months with
  | Some n => sub_months (month_start reference_date) (n - 1)
  | None => Loaded (mkdate (year reference_date) 1 1)
  end.

(** [load_config()] on the file [config.yaml], [None] when there is no such
    file, on the day [today]. *)
Definition load_config (file : option raw_config) (today : date)
    : loading AppConfig :=
  match file with
  | None =>
      ConfigError
        "Missing config.yaml. Copy config.example.yaml, rename it to config.yaml, and set api_base_url/api_token."
  | Some raw =>
      api_base_url ← required (raw_api_base_url raw) "api_base_url";
      let api_base_url := rstrip_slash api_base_url in
      api_token ← required (raw_api_token raw) "api_token";
      months ← months_of (raw_months raw);
      period_config ← period_members (raw_period raw);
      period_start ←
        period_date (fst period_config)
          "`period.start` must be in YYYY-MM-DD format";
      period_end ←
        period_date (snd period_config)
          "`period.end` must be in YYYY-MM-DD format";
      let period_end := default today period_end in
      let reference_date := period_end in
      period_start ←
        match period_start with
        | Some start => Loaded start
        | None => start_of_period months reference_date
        end;
      if date_lt period_end period_start then
        ConfigError "`period.end` must not be earlier than the start date"
      else
        cache_ttl ← cache_ttl_of (raw_cache_ttl_minutes raw);
        Loaded {| api_base_url := api_base_url;
                  api_token := api_token;
                  cache_ttl_minutes := cache_ttl;
                  months := months;
                  period_start := Some period_start;
                  period_end := Some period_end |}
  end.

End Config.

(** ** The route [/] and the error handlers

    The templates are taken to render. *)

Inductive reply :=
  | Page (ctx : context)                (* [index.html] *)
  | ConfigErrorPage (message : string)  (* [error.html] with status 500 *)
  | BadGatewayPage (status : Z)         (* [error.html] with status 502 *)
  | Unhandled (e : error)               (* no handler of the application *)
  | NoReply.                            (* the request does not end *)

(** [request.args.get("refresh") in {"1", "true", "yes"}] *)
Definition wants_refresh (arg : option string) : bool :=
  match arg with
  | Some text => bool_decide (text ∈ ["1"; "true"; "yes"])
  | None => false
  end.

(** The handlers registered with [app.errorhandler]: [ConfigError] has
    [handle_config_error], and of the other exceptions only [HTTPError] has
    a handler. *)
Definition handle (e : error) : reply :=
  match e with
  | HTTPError status => BadGatewayPage status
  | _ => Unhandled e
  end.

(** One request: the reply, the cache of the application afterwards and the
    number of runs of the pipeline. *)
Record visit := {
  reply_of : reply;
  cache_left : DashboardCache;
  refreshes : nat
}.

Section Route.

Context `{PyLib}.

Variable fromisoformat : string → option date.

Definition index (cache : DashboardCache) (file : option raw_config)
    (arg : option string) (fuel : nat) (env : environment) (now : instant)
    : visit :=
  match load_config fromisoformat file (today env) with
  | ConfigError message =>
      {| reply_of := ConfigErrorPage message; cache_left := cache;
         refreshes := 0 |}
  | Uncaught e =>
      {| reply_of := handle e; cache_left := cache; refreshes := 0 |}
  | Loaded config =>
      let result := get cache fuel env config (wants_refresh arg) now in
      {| reply_of :=
           match returned result with
           | Done ctx => Page ctx
           | Raised e => handle e
           | Diverged => NoReply
           end;
         cache_left := cache_after result;
         refreshes := pipeline_runs result |}
  end.

End Route.

(** ** Further sample data *)

Module Example3.

Import Sample.

(** A ledger whose pages disagree on the number of pages: the first page
    announces five of them, the second one two. *)
Definition shrinking (r : request) : response :=
  if req_page r =? 1 then
    Success (page [group [split "1" "10" "2024-01-15" "Food"]] (Val 5))
  else if req_page r =? 2 then
    Success (page [group [split "2" "20" "2024-01-16" "Rent"]] (Val 2))
  else Success (page [group [split "9" "90" "2024-01-17" "Food"]] (Val 5)).

Definition shrinking_pages (q : Z) : payload :=
  match shrinking (params client "withdrawal" Example2.january
                     Example2.february 100 q) with
  | Success p => p
  | Failure _ => page [] Missing
  end.

Definition shrinking_totals (q : Z) : Z := if q =? 2 then 2 else 5.

Definition shrinking_records (q : Z) : list record :=
  match page_records shrinking client "withdrawal" Example2.january
          Example2.february 100 q with
  | Done rs => rs
  | _ => []
  end.

(** A transaction whose amount is [null] and that has no date. *)
Definition null_amount : raw_transaction :=
  {| transaction_journal_id := Val "8";
     raw_amount := Null;
     raw_date := Missing;
     category_name := Val "Food";
     source_name := Val "Checking";
     destination_name := Val "Shop";
     currency_code := Val "EUR";
     foreign_currency_code := Null |}.


Definition charge : raw_transaction := split "4" "12.50" "2024-01-18" "Food".

(** A transaction that names only a foreign currency. *)
Definition foreign : raw_transaction :=
  {| transaction_journal_id := Val "5";
     raw_amount := Val "3";
     raw_date := Val "2024-01-19";
     category_name := Val "Travel";
     source_name := Val "Checking";
     destination_name := Val "Kiosk";
     currency_code := Val "";
     foreign_currency_code := Val "USD" |}.

(** A group of three transactions, the second of which has no date. *)
Definition mixed : group_obj := group [charge; empty_split; null_amount].

(** A ledger that refuses deposits and withdrawals with different status
    codes. *)
Definition refusing (r : request) : response :=
  if decide (req_type r = "deposit") then Failure (HTTPError 503)
  else if decide (req_type r = "withdrawal") then Failure (HTTPError 404)
  else Success (page [] Missing).

(** A ledger whose transfers never come to the last page and that refuses
    everything else. *)
Definition stuck (r : request) : response :=
  if decide (req_type r = "transfer") then
    Success (page [] (Val (req_page r + 1)))
  else Failure (HTTPError 503).

(** The sample environment with another order of completion. *)
Definition env_with (api : request → response) (order : list string)
    : environment :=
  {| api := api;
     today := mkdate 2024 3 1;
     utcnow := 0;
     completed := order |}.

(** A configuration without a period. *)
Definition open_config : AppConfig :=
  {| api_base_url := "https://ledger.example";
     api_token := "secret";
     cache_ttl_minutes := 10;
     months := None;
     period_start := None;
     period_end := None |}.

(** A configuration whose range ends on Christmas 9999. *)
Definition last_christmas : AppConfig :=
  {| api_base_url := "https://ledger.example";
     api_token := "secret";
     cache_ttl_minutes := 10;
     months := None;
     period_start := Some (mkdate 9998 3 10);
     period_end := Some (mkdate 9999 12 25) |}.

(** The first request to the dashboard, and one ten minutes later while
    the ledger is down. *)
Definition first_visit : call :=
  {| call_fuel := 1;
     call_env := env ledger 0;
     call_config := config;
     call_force_refresh := false;
     call_now := 0 |}.

Definition later_visit : call :=
  {| call_fuel := 1;
     call_env := env down 600000000;
     call_config := config;
     call_force_refresh := false;
     call_now := 600000000 |}.

(** A stand-in for [date.fromisoformat]: exactly [YYYY-MM-DD]. *)
Definition fromisoformat (s : string) : option date :=
  '(y, s) ← number 4 s 0;
  s ← dash s;
  '(m, s) ← number 2 s 0;
  s ← dash s;
  '(d, s) ← number 2 s 0;
  if bool_decide (s = "") && (MINYEAR <=? y) && (y <=? MAXYEAR) &&
     (1 <=? m) && (m <=? 12) && (1 <=? d) && (d <=? days_in_month y m)
  then Some (mkdate y m d)
  else None.

(** A configuration file that asks for the last three months up to the
    end of February 2024. *)
Definition three_months : raw_config :=
  {| raw_api_base_url := Some "https://ledger.example//";
     raw_api_token := Some "secret";
     raw_months := Val 3;
     raw_period := Val (PeriodMapping Null (Val "2024-02-28"));
     raw_cache_ttl_minutes := Missing |}.

(** A configuration file with the two required entries and the end of the
    period only. *)
Definition until_may : raw_config :=
  {| raw_api_base_url := Some "https://ledger.example";
     raw_api_token := Some "secret";
     raw_months := Missing;
     raw_period := Val (PeriodMapping Missing (Val "2023-05-20"));
     raw_cache_ttl_minutes := Val 5 |}.

(** A configuration file that asks for more months than the calendar has
    before today. *)
Definition too_many_months : raw_config :=
  {| raw_api_base_url := Some "https://ledger.example";
     raw_api_token := Some "secret";
     raw_months := Val 24280;
     raw_period := Missing;
     raw_cache_ttl_minutes := Missing |}.

End Example3.

(** * Properties *)

(** ** Outcomes *)

Lemma bind_Done {A B} (m : outcome A) (f : A → outcome B) (b : B) :
  (m ≫= f) = Done b ↔ ∃ a, m = Done a ∧ f a = Done b.
Proof.
  split.
  - destruct m as [a| |]; simpl; [eauto|done..].
  - by intros (a & -> & ?).
Qed.

Lemma bind_Raised {A B} (m : outcome A) (f : A → outcome B) (e : error) :
  (m ≫= f) = Raised e ↔ m = Raised e ∨ ∃ a, m = Done a ∧ f a = Raised e.
Proof.
  split.
  - destruct m as [a| |]; simpl; [eauto|intros [= ->]; eauto|done].
  - by intros [->|(a & -> & ?)].
Qed.

(** ** Month labels *)

Lemma digit_inj a b : digit a = digit b → a mod 10 = b mod 10.
Proof.
  unfold digit. intros Heq%(f_equal nat_of_ascii).
  pose proof (Z.mod_pos_bound a 10) as Ha.
  pose proof (Z.mod_pos_bound b 10) as Hb.
  rewrite !nat_ascii_embedding in Heq by lia. lia.
Qed.

Lemma pad2_inj a b s t :
  0 ≤ a < 100 → 0 ≤ b < 100 → pad2 a s = pad2 b t → a = b ∧ s = t.
Proof.
  unfold pad2. intros Ha Hb [= H1%digit_inj H0%digit_inj ->].
  split; [|done].
  rewrite (Z.div_mod a 10), (Z.div_mod b 10) by lia.
  rewrite (Z.mod_small (a / 10)), (Z.mod_small (b / 10)) in H1; [lia|..];
    split; try (apply Z.div_pos; lia); apply Z.div_lt_upper_bound; lia.
Qed.

Lemma pad4_inj a b s t :
  0 ≤ a < 10000 → 0 ≤ b < 10000 → pad4 a s = pad4 b t → a = b ∧ s = t.
Proof.
  unfold pad4, pad2.
  intros Ha Hb [= H3%digit_inj H2%digit_inj H1%digit_inj H0%digit_inj ->].
  split; [|done]. Z.div_mod_to_equations. lia.
Qed.

Lemma valid_date_in_year_range d : valid_date d → in_year_range d.
Proof. unfold valid_date, in_year_range. tauto. Qed.

Lemma strftime_Ym_inj a b :
  in_year_range a → in_year_range b →
  strftime_Ym a = strftime_Ym b → year a = year b ∧ month a = month b.
Proof.
  unfold in_year_range, MINYEAR, MAXYEAR, strftime_Ym.
  intros Ha Hb [Hy Hm]%pad4_inj; [|lia..].
  apply (f_equal (fun s => match s with String _ r => r | _ => s end)) in Hm.
  apply pad2_inj in Hm; lia.
Qed.

(** ** The month loop *)

Lemma month_loop_eq current end_month :
  month_loop current end_month =
    if date_le current end_month then
      match add_one_month current with
      | Done next =>
          months ← month_loop (month_start next) end_month;
          Done (current :: months)
      | Raised e => Raised e
      | Diverged => Diverged
      end
    else Done [].
Proof.
  funelim (month_loop current end_month);
    repeat match goal with
    | Heq : date_le _ _ = _ |- _ => rewrite Heq
    | Heq : add_one_month _ = _ |- _ => rewrite Heq
    end; done.
Qed.

Lemma month_of_ordinal_start d :
  1 ≤ month d ≤ 12 → month_of_ordinal (month_ordinal d) = month_start d.
Proof.
  intros Hm. unfold month_of_ordinal, month_ordinal, month_start.
  f_equal; Z.div_mod_to_equations; lia.
Qed.

Lemma month_ordinal_of_ordinal o : month_ordinal (month_of_ordinal o) = o.
Proof.
  unfold month_of_ordinal, month_ordinal. simpl.
  Z.div_mod_to_equations; lia.
Qed.

Lemma month_start_of_ordinal o :
  month_start (month_of_ordinal o) = month_of_ordinal o.
Proof. done. Qed.

Lemma in_year_range_ordinal d :
  in_year_range d → first_ordinal ≤ month_ordinal d ≤ last_ordinal.
Proof.
  unfold in_year_range, month_ordinal, first_ordinal, last_ordinal,
    MINYEAR, MAXYEAR. lia.
Qed.

Lemma in_year_range_of_ordinal o :
  first_ordinal ≤ o ≤ last_ordinal → in_year_range (month_of_ordinal o).
Proof.
  unfold in_year_range, month_of_ordinal, first_ordinal, last_ordinal,
    MINYEAR, MAXYEAR. simpl.
  intros Ho. Z.div_mod_to_equations; lia.
Qed.

Lemma days_in_month_pos y m : 1 ≤ days_in_month y m.
Proof.
  unfold days_in_month.
  repeat match goal with |- context [if ?b then _ else _] => destruct b end;
    lia.
Qed.

Lemma add_one_month_of_ordinal o :
  first_ordinal ≤ o →
  add_one_month (month_of_ordinal o) =
    if o <? last_ordinal then Done (month_of_ordinal (o + 1))
    else Raised ValueError.
Proof.
  unfold add_one_month, month_of_ordinal, first_ordinal, last_ordinal,
    MINYEAR, MAXYEAR.
  intros Ho. cbn [year month day].
  rewrite Z.min_r by apply days_in_month_pos.
  destruct (Z.ltb_spec o (9999 * 12 + 12));
    destruct (Z.ltb_spec 12 ((o - 1) mod 12 + 1 + 1));
    repeat match goal with
    | |- context [?a <=? ?b] => destruct (Z.leb_spec a b)
    end; cbn [andb];
    first [ done
          | do 2 f_equal; Z.div_mod_to_equations; lia
          | exfalso; Z.div_mod_to_equations; lia ].
Qed.

Lemma date_le_of_ordinal a b :
  date_le (month_of_ordinal a) (month_of_ordinal b) = (a <=? b).
Proof.
  unfold date_le, month_of_ordinal. cbn [year month day].
  repeat match goal with
  | |- context [?x <? ?y] => destruct (Z.ltb_spec x y)
  | |- context [?x =? ?y] => destruct (Z.eqb_spec x y)
  | |- context [?x <=? ?y] => destruct (Z.leb_spec x y)
  end; cbn [andb orb]; try done; exfalso; Z.div_mod_to_equations; lia.
Qed.

(** The loop from the month [o] to the month [o + n - 1]: it yields these [n]
    months, unless the last of them is December 9999, where the step to the
    month after it raises. *)
Lemma month_loop_of_ordinal (n : nat) (o : Z) :
  first_ordinal ≤ o →
  o + Z.of_nat n - 1 ≤ last_ordinal →
  month_loop (month_of_ordinal o) (month_of_ordinal (o + Z.of_nat n - 1)) =
    if decide (n ≠ O ∧ o + Z.of_nat n - 1 = last_ordinal)
    then Raised ValueError
    else Done (month_of_ordinal <$> seqZ o (Z.of_nat n)).
Proof.
  revert o. induction n as [|n IH]; intros o Hlo Hhi.
  - rewrite month_loop_eq, date_le_of_ordinal.
    destruct (Z.leb_spec o (o + Z.of_nat 0 - 1)); [lia|].
    by rewrite decide_False by tauto.
  - rewrite month_loop_eq, date_le_of_ordinal.
    destruct (Z.leb_spec o (o + Z.of_nat (S n) - 1)); [|lia].
    rewrite add_one_month_of_ordinal by done.
    destruct (Z.ltb_spec o last_ordinal).
    + rewrite month_start_of_ordinal.
      replace (o + Z.of_nat (S n) - 1) with (o + 1 + Z.of_nat n - 1) by lia.
      rewrite IH by lia.
      destruct (decide (o + 1 + Z.of_nat n - 1 = last_ordinal)) as [Hlast|Hlast].
      * rewrite !decide_True by (split; [lia|done]). done.
      * rewrite !decide_False by (intros [_ ?]; done). simpl.
        rewrite (seqZ_cons o) by lia.
        by replace (Z.pred (Z.of_nat (S n))) with (Z.of_nat n) by lia.
    + rewrite decide_True; [done|]. split; [done|lia].
Qed.

Lemma date_le_month_ordinal a b :
  in_year_range a → in_year_range b →
  date_le a b = true → month_ordinal a ≤ month_ordinal b.
Proof.
  unfold in_year_range, date_le, month_ordinal. intros Ha Hb.
  repeat match goal with
  | |- context [?x <? ?y] => destruct (Z.ltb_spec x y)
  | |- context [?x =? ?y] => destruct (Z.eqb_spec x y)
  end; cbn [andb orb]; try done; lia.
Qed.

(** [month_sequence] on dates of the calendar: nothing when the end month
    precedes the start month, [ValueError] when the end month is December
    9999, and otherwise every month from the start month to the end month. *)
Lemma month_sequence_spec start end_ :
  in_year_range start → in_year_range end_ →
  month_sequence start end_ =
    if month_ordinal end_ <? month_ordinal start then Done []
    else if month_ordinal end_ =? last_ordinal then Raised ValueError
    else Done (month_of_ordinal <$>
                 seqZ (month_ordinal start)
                   (month_ordinal end_ - month_ordinal start + 1)).
Proof.
  intros Hs He. unfold month_sequence.
  pose proof (in_year_range_ordinal _ Hs) as Hso.
  pose proof (in_year_range_ordinal _ He) as Heo.
  rewrite <- !month_of_ordinal_start by apply Hs || apply He.
  destruct (Z.ltb_spec (month_ordinal end_) (month_ordinal start)) as [Hlt|Hle].
  - rewrite month_loop_eq, date_le_of_ordinal.
    by destruct (Z.leb_spec (month_ordinal start) (month_ordinal end_)); [lia|].
  - set (n := Z.to_nat (month_ordinal end_ - month_ordinal start + 1)).
    replace (month_ordinal end_)
      with (month_ordinal start + Z.of_nat n - 1) at 1 by lia.
    rewrite month_loop_of_ordinal by lia.
    replace (Z.of_nat n)
      with (month_ordinal end_ - month_ordinal start + 1) by lia.
    destruct (Z.eqb_spec (month_ordinal end_) last_ordinal).
    + rewrite decide_True; [done|]. split; lia.
    + rewrite decide_False; [done|]. intros [_ ?]. lia.
Qed.

Lemma NoDup_month_labels (o n : Z) :
  first_ordinal ≤ o → o + n - 1 ≤ last_ordinal →
  NoDup (strftime_Ym <$> (month_of_ordinal <$> seqZ o n)).
Proof.
  intros Hlo Hhi. rewrite <- list_fmap_compose.
  apply NoDup_fmap_2_strong; [|apply NoDup_seqZ].
  intros a b [Ha Ha']%elem_of_seqZ [Hb Hb']%elem_of_seqZ Heq. simpl in Heq.
  apply strftime_Ym_inj in Heq as [Hy Hm];
    [|apply in_year_range_of_ordinal; lia..].
  rewrite <- (month_ordinal_of_ordinal a), <- (month_ordinal_of_ordinal b).
  unfold month_ordinal. by rewrite Hy, Hm.
Qed.

(** ** Sums of decimals *)

Lemma foldl_Qcplus (a : Qc) (xs : list Qc) :
  foldl Qcplus a xs = (a + decimal_sum xs)%Qc.
Proof.
  unfold decimal_sum. revert a.
  induction xs as [|x xs IH]; intros a; simpl.
  - ring.
  - rewrite (IH (a + x)%Qc), (IH (0 + x)%Qc). ring.
Qed.

Lemma decimal_sum_nil : decimal_sum [] = 0%Qc.
Proof. done. Qed.

Lemma decimal_sum_cons (x : Qc) (xs : list Qc) :
  decimal_sum (x :: xs) = (x + decimal_sum xs)%Qc.
Proof. unfold decimal_sum at 1. simpl. rewrite foldl_Qcplus. ring. Qed.

Lemma decimal_sum_app (xs ys : list Qc) :
  decimal_sum (xs ++ ys) = (decimal_sum xs + decimal_sum ys)%Qc.
Proof.
  induction xs as [|x xs IH]; simpl.
  - rewrite decimal_sum_nil. ring.
  - rewrite !decimal_sum_cons, IH. ring.
Qed.

(** ** The buckets of [aggregate_monthly] *)

Lemma total_amount_cons tx items :
  total_amount (tx :: items) = (amount tx + total_amount items)%Qc.
Proof. unfold total_amount. simpl. apply decimal_sum_cons. Qed.

Lemma total_amount_app xs ys :
  total_amount (xs ++ ys) = (total_amount xs + total_amount ys)%Qc.
Proof. unfold total_amount. rewrite fmap_app. apply decimal_sum_app. Qed.

Lemma month_total_cons key tx items :
  month_total key (tx :: items) =
    ((if decide (month_key tx = key) then amount tx else 0) +
     month_total key items)%Qc.
Proof.
  unfold month_total. rewrite filter_cons.
  destruct (decide (month_key tx = key)).
  - apply total_amount_cons.
  - ring.
Qed.

Lemma bucket_get_empty key tx_type : bucket_get ∅ key tx_type = 0%Qc.
Proof. unfold bucket_get. by rewrite lookup_empty. Qed.

Lemma bucket_get_add buckets key tx_type a key' tx_type' :
  bucket_get (bucket_add buckets key tx_type a) key' tx_type' =
    if decide (key = key' ∧ tx_type = tx_type')
    then (bucket_get buckets key tx_type + a)%Qc
    else bucket_get buckets key' tx_type'.
Proof.
  unfold bucket_get, bucket_add.
  destruct (decide (key = key')) as [<-|Hkey].
  - rewrite lookup_insert_eq. simpl.
    destruct (decide (tx_type = tx_type')) as [<-|Htype].
    + rewrite lookup_insert_eq, decide_True by done. done.
    + rewrite lookup_insert_ne, decide_False by tauto. done.
  - rewrite lookup_insert_ne, decide_False by tauto. done.
Qed.

Lemma bucket_get_foldl items buckets tx_type key tx_type' :
  bucket_get
    (foldl (fun buckets tx =>
              bucket_add buckets (month_key tx) tx_type (amount tx))
       buckets items) key tx_type' =
  (bucket_get buckets key tx_type' +
   (if decide (tx_type = tx_type') then month_total key items else 0))%Qc.
Proof.
  revert buckets. induction items as [|tx items IH]; intros buckets; simpl.
  - unfold month_total, total_amount. simpl. rewrite decimal_sum_nil.
    destruct (decide _); ring.
  - rewrite IH, bucket_get_add, month_total_cons.
    destruct (decide (tx_type = tx_type')) as [<-|Htype].
    + destruct (decide (month_key tx = key)) as [<-|Hkey].
      * rewrite decide_True by done. ring.
      * rewrite decide_False by tauto. ring.
    + rewrite decide_False by tauto. ring.
Qed.

(** A bucket of [fill_buckets] holds the amounts of the records of its
    transaction type that are booked in its month. *)
Lemma bucket_get_fill (transactions : gmap string (list record)) key tx_type :
  bucket_get (fill_buckets transactions) key tx_type =
    month_total key (default [] (transactions !! tx_type)).
Proof.
  unfold fill_buckets.
  apply (map_fold_weak_ind
    (fun buckets (m : gmap string (list record)) =>
       bucket_get buckets key tx_type =
         month_total key (default [] (m !! tx_type)))).
  - rewrite bucket_get_empty, lookup_empty. done.
  - intros ty items m buckets Hfresh IH.
    rewrite bucket_get_foldl, IH.
    destruct (decide (ty = tx_type)) as [->|Hty].
    + rewrite Hfresh, lookup_insert_eq. simpl.
      unfold month_total at 1, total_amount. simpl. rewrite decimal_sum_nil.
      ring.
    + rewrite lookup_insert_ne by done. ring.
Qed.

(** ** Monthly rows and totals *)







Lemma aggregate_totals_lookup (transactions : gmap string (list record))
    (tx_type : string) :
  tx_type ≠ "net" →
  aggregate_totals transactions !! tx_type =
    (fun items => float_of_decimal (total_amount items)) <$>
      transactions !! tx_type.
Proof.
  intros Hne. unfold aggregate_totals.
  by rewrite lookup_insert_ne, lookup_fmap by done.
Qed.

Lemma aggregate_totals_net (transactions : gmap string (list record)) :
  aggregate_totals transactions !! "net" =
    Some (float_sub
            (default float_zero (aggregate_totals transactions !! "deposit"))
            (default float_zero (aggregate_totals transactions !! "withdrawal"))).
Proof.
  rewrite (aggregate_totals_lookup _ "deposit"),
    (aggregate_totals_lookup _ "withdrawal") by done.
  unfold aggregate_totals. by rewrite lookup_insert_eq, !lookup_fmap.
Qed.




(** The float sums differ as well when every record lies in the range:
    0.1 + 0.2 is not the float nearest to 0.3. *)
Lemma series_net_sum_rounds_differently :
  covers Example1.months (default [] (Example1.dimes !! "deposit")) ∧
  SFeqb (float_sum (series_net (aggregate_monthly Example1.dimes Example1.months)))
    (default float_zero (aggregate_totals Example1.dimes !! "net")) = false.
Proof.
  split; [|by vm_compute].
  apply (bool_decide_unpack _). by vm_compute.
Qed.

(** ** Grouping by label *)

Lemma filter_none {A} (P : A → Prop) `{!∀ x, Decision (P x)} (l : list A) :
  Forall (fun x => ¬ P x) l → filter P l = [].
Proof.
  induction 1 as [|x l Hx Hl IH]; [done|].
  by rewrite filter_cons_False.
Qed.


Lemma totals_get_Some totals label total :
  NoDup totals.*1 →
  totals_get totals label = Some total ↔ (label, total) ∈ totals.
Proof.
  induction totals as [|[name t] rest IH]; simpl; intros Hnodup.
  - split; [done|]. by intros ?%not_elem_of_nil.
  - apply NoDup_cons in Hnodup as [Hname Hrest].
    rewrite elem_of_cons. destruct (decide (name = label)) as [->|Hne].
    + split.
      * intros [= ->]. by left.
      * intros [[= ->]|Hin]; [done|].
        destruct Hname. apply list_elem_of_fmap. by exists (label, total).
    + rewrite IH by done. split; [tauto|].
      intros [[= -> ->]|?]; [done|tauto].
Qed.

Lemma totals_add_keys totals label a :
  (totals_add totals label a).*1 =
    if decide (label ∈ totals.*1) then totals.*1 else totals.*1 ++ [label].
Proof.
  induction totals as [|[name total] rest IH].
  - destruct (decide (label ∈ _)) as [Hin|_]; [|done].
    by apply not_elem_of_nil in Hin.
  - cbn [totals_add]. rewrite !fmap_cons. cbn [fst].
    destruct (decide (name = label)) as [->|Hne].
    + rewrite fmap_cons. cbn [fst].
      by rewrite decide_True by (rewrite elem_of_cons; tauto).
    + rewrite fmap_cons, IH. cbn [fst].
      destruct (decide (label ∈ rest.*1)).
      * by rewrite decide_True by (rewrite elem_of_cons; tauto).
      * rewrite decide_False; [done|]. rewrite elem_of_cons.
        intros [?|?]; [congruence|done].
Qed.

Lemma totals_add_get totals label a k :
  totals_get (totals_add totals label a) k =
    if decide (k = label)
    then Some (default 0 (totals_get totals label) + a)%Qc
    else totals_get totals k.
Proof.
  induction totals as [|[name total] rest IH]; simpl.
  - destruct (decide (label = k)) as [->|Hne].
    + by rewrite decide_True by done.
    + by rewrite decide_False by congruence.
  - destruct (decide (name = label)) as [->|Hne]; simpl.
    + destruct (decide (label = k)) as [->|Hne'].
      * by rewrite decide_True by done.
      * by rewrite decide_False by congruence.
    + destruct (decide (name = k)) as [->|Hne'].
      * by rewrite decide_False by congruence.
      * apply IH.
Qed.

Lemma totals_add_NoDup totals label a :
  NoDup totals.*1 → NoDup (totals_add totals label a).*1.
Proof.
  intros Hnodup. rewrite totals_add_keys.
  destruct (decide (label ∈ totals.*1)); [done|].
  apply NoDup_app. split_and!; [done| |apply NoDup_singleton].
  intros x Hx ->%list_elem_of_singleton. done.
Qed.

Lemma group_totals_snoc key items tx :
  group_totals key (items ++ [tx]) =
    totals_add (group_totals key items) (label_of key tx) (amount tx).
Proof. unfold group_totals. by rewrite foldl_app. Qed.

Lemma label_total_snoc key items tx label :
  label_total key (items ++ [tx]) label =
    (label_total key items label +
     (if decide (label_of key tx = label) then amount tx else 0))%Qc.
Proof.
  unfold label_total. rewrite filter_app, total_amount_app. f_equal.
  rewrite filter_cons, filter_nil.
  destruct (decide (label_of key tx = label)).
  - rewrite total_amount_cons. unfold total_amount. simpl.
    rewrite decimal_sum_nil. ring.
  - done.
Qed.

Lemma group_totals_NoDup key items : NoDup (group_totals key items).*1.
Proof.
  induction items as [|tx items IH] using rev_ind.
  - apply NoDup_nil_2.
  - rewrite group_totals_snoc. by apply totals_add_NoDup.
Qed.

(** The dictionary built by the loop of [top_breakdown] has one entry for
    each label that occurs, holding the sum of the amounts under it. *)
Lemma group_totals_get key items label :
  totals_get (group_totals key items) label =
    if decide (label ∈ label_of key <$> items)
    then Some (label_total key items label)
    else None.
Proof.
  revert label. induction items as [|tx items IH] using rev_ind; intros label.
  - by rewrite decide_False by apply not_elem_of_nil.
  - rewrite group_totals_snoc, totals_add_get, label_total_snoc, !IH.
    assert (∀ l, l ∈ label_of key <$> items ++ [tx] ↔
                 l ∈ label_of key <$> items ∨ l = label_of key tx) as Hsnoc.
    { intros l. rewrite fmap_app, elem_of_app. simpl.
      by rewrite list_elem_of_singleton. }
    destruct (decide (label = label_of key tx)) as [->|Hne].
    + rewrite (decide_True (P := _ ∈ _ <$> _ ++ _)) by (apply Hsnoc; tauto).
      rewrite (decide_True (P := label_of key tx = label_of key tx)) by done.
      f_equal.
      destruct (decide (label_of key tx ∈ label_of key <$> items)) as [|Hnew];
        simpl; [done|].
      assert (label_total key items (label_of key tx) = 0%Qc) as ->; [|ring].
      unfold label_total.
      rewrite filter_none; [done|].
      apply Forall_forall. intros tx' Hin Heq. apply Hnew.
      rewrite <- Heq. by apply list_elem_of_fmap_2.
    + rewrite (decide_False (P := label_of key tx = label)) by congruence.
      destruct (decide (label ∈ label_of key <$> items)).
      * rewrite decide_True by (apply Hsnoc; tauto). f_equal. ring.
      * rewrite decide_False; [done|]. rewrite Hsnoc. tauto.
Qed.

Lemma group_totals_elem key items label total :
  (label, total) ∈ group_totals key items ↔
    label ∈ label_of key <$> items ∧ total = label_total key items label.
Proof.
  rewrite <- totals_get_Some by apply group_totals_NoDup.
  rewrite group_totals_get.
  destruct (decide (label ∈ label_of key <$> items)).
  - split; [intros [= <-]; done|intros [_ ->]; done].
  - split; [done|tauto].
Qed.

(** ** The stable descending sort *)

Lemma insert_desc_Permutation p sorted : insert_desc p sorted ≡ₚ p :: sorted.
Proof.
  induction sorted as [|q rest IH]; simpl; [done|].
  destruct (Qclt_le_dec (snd p) (snd q)); [|done].
  rewrite IH. apply Permutation_swap.
Qed.

Lemma sorted_desc_Permutation pairs : sorted_desc pairs ≡ₚ pairs.
Proof.
  induction pairs as [|p pairs IH]; simpl; [done|].
  by rewrite insert_desc_Permutation, IH.
Qed.






(** ** Order of appearance *)








(** ** [top_breakdown] *)


Lemma ranked_totals_sublist items key limit :
  ranked_totals items key limit `sublist_of` sorted_desc (group_totals key items).
Proof.
  unfold ranked_totals, slice_to. destruct (limit <? 0); apply sublist_take.
Qed.

Lemma ranked_totals_elem items key limit name total :
  (name, total) ∈ ranked_totals items key limit →
  name ∈ label_of key <$> items ∧ total = label_total key items name.
Proof.
  intros Hin%(sublist_subseteq _ _ (ranked_totals_sublist items key limit)).
  rewrite sorted_desc_Permutation in Hin. by apply group_totals_elem.
Qed.

Lemma ranked_totals_NoDup items key limit :
  NoDup (ranked_totals items key limit).*1.
Proof.
  eapply sublist_NoDup; [|apply fmap_sublist, ranked_totals_sublist].
  rewrite sorted_desc_Permutation. apply group_totals_NoDup.
Qed.


(** ** The normalizer *)

Lemma or_else_blank (m : member string) (default : string) :
  blank m → or_else (dict_get m) default = default.
Proof. by intros [-> | [-> | ->]]. Qed.

Lemma or_else_nonempty (x : option string) (default : string) :
  default ≠ "" → or_else x default ≠ "".
Proof.
  intros Hdefault. destruct x as [s|]; simpl; [|done].
  by destruct (decide (s = "")).
Qed.

Lemma label_of_nonempty (s : string) :
  s ≠ "" → or_else (Some s) uncategorized = s.
Proof. intros Hs. simpl. by rewrite decide_False. Qed.

Section Normalizer.

Context `{PyLib}.

Lemma parse_transaction_Done description transaction_type transaction r :
  parse_transaction description transaction_type transaction = Done r →
  ∃ d booked,
    parse_amount transaction = Done d ∧
    parse_date transaction = Done booked ∧
    r = {| tx_id := dict_get (transaction_journal_id transaction);
           tx_type := transaction_type;
           booked_at := booked;
           amount := decimal_abs d;
           currency :=
             or_else (dict_get (currency_code transaction))
               (or_else (dict_get (foreign_currency_code transaction)) "");
           category :=
             or_else (dict_get (category_name transaction)) uncategorized;
           source :=
             or_else (dict_get (source_name transaction)) unknown_account;
           destination :=
             or_else (dict_get (destination_name transaction))
               unknown_account;
           description := description |}.
Proof.
  unfold parse_transaction.
  intros (d & Hd & (booked & Hbooked & [= <-])%bind_Done)%bind_Done.
  by exists d, booked.
Qed.

(** C4 (amended): the normalizer gives a transaction whose category name
    is missing, null or empty the category ["未分类"], and one whose source
    or destination name is missing, null or empty the account
    ["未知账户"]; a breakdown groups the record under these very labels;
    and a breakdown has at most one entry for a label, whose amount is the
    conversion to float of the sum of the amounts of all the records
    under that label. *)
Theorem fallback_labels_are_grouped description transaction_type
    transaction r :
  parse_transaction description transaction_type transaction = Done r →
  (blank (category_name transaction) → category r = "未分类") ∧
  (blank (source_name transaction) → source r = "未知账户") ∧
  (blank (destination_name transaction) → destination r = "未知账户") ∧
  label_of KCategory r = category r ∧
  label_of KSource r = source r ∧
  label_of KDestination r = destination r ∧
  ∀ (items : list record) (key : text_key),
    NoDup (top_breakdown items key default_limit).*1 ∧
    ∀ name total,
      (name, total) ∈ top_breakdown items key default_limit →
      total = float_of_decimal (label_total key items name).
Proof.
  intros (d & booked & _ & _ & ->)%parse_transaction_Done. simpl.
  split_and!; try (by apply or_else_blank);
    try (unfold label_of; simpl; apply label_of_nonempty;
         by apply or_else_nonempty).
  intros items key. split.
  - unfold top_breakdown. rewrite <- list_fmap_compose.
    apply ranked_totals_NoDup.
  - intros name total ([name' total'] & [= -> ->] & Hin)%list_elem_of_fmap.
    by apply ranked_totals_elem in Hin as [_ ->].
Qed.

(** With an absent amount the amount step yields zero. *)
Lemma parse_amount_missing transaction :
  Decimal "0" = Some 0%Qc →
  raw_amount transaction = Missing →
  parse_amount transaction = Done 0%Qc.
Proof.
  intros Hzero Hmissing. unfold parse_amount.
  rewrite Hmissing. simpl. by rewrite Hzero.
Qed.

(** C10 (amended): a transaction without an amount whose date parses is
    normalized to a record with amount 0: the missing amount reads as
    ["0"] and does not raise. *)
Theorem missing_amount_is_zero description transaction_type transaction
    text booked :
  Decimal "0" = Some 0%Qc →
  raw_amount transaction = Missing →
  dict_get (raw_date transaction) = Some text →
  isoparse text = Some booked →
  ∃ r, parse_transaction description transaction_type transaction = Done r ∧
       amount r = 0%Qc ∧ booked_at r = booked.
Proof.
  intros Hzero Hmissing Hdate Hparse.
  unfold parse_transaction, parse_date.
  rewrite parse_amount_missing, Hdate, Hparse by done. simpl.
  eexists. split; [done|]. simpl. split; [|done].
  unfold decimal_abs. by destruct (Qclt_le_dec 0 0).
Qed.

End Normalizer.

Lemma fallback_labels_are_grouped_witness :
  @parse_transaction Sample.lib None "withdrawal" Sample.bare_split =
    Done {| tx_id := Some "7";
            tx_type := "withdrawal";
            booked_at := mkdatetime (mkdate 2024 3 9) 0 None;
            amount := decimal_abs 0;
            currency := "";
            category := "未分类";
            source := "未知账户";
            destination := "未知账户";
            description := None |} ∧
  ∀ name total,
    (name, total) ∈
      top_breakdown (default [] (Example1.transactions !! "withdrawal"))
        KCategory default_limit →
    total = float_of_decimal
              (label_total KCategory
                 (default [] (Example1.transactions !! "withdrawal")) name).
Proof.
  assert (@parse_transaction Sample.lib None "withdrawal" Sample.bare_split =
    Done {| tx_id := Some "7";
            tx_type := "withdrawal";
            booked_at := mkdatetime (mkdate 2024 3 9) 0 None;
            amount := decimal_abs 0;
            currency := "";
            category := "未分类";
            source := "未知账户";
            destination := "未知账户";
            description := None |}) as Hparse by reflexivity.
  split; [exact Hparse|].
  destruct (fallback_labels_are_grouped _ _ _ _ Hparse)
    as (_ & _ & _ & _ & _ & _ & Hgroup).
  apply Hgroup.
Defined.

(** C4, as stated, fails: the fallback labels are not the English words. *)
Lemma fallback_labels_are_not_english :
  ∃ r, @parse_transaction Sample.lib None "withdrawal" Sample.bare_split = Done r ∧
       blank (category_name Sample.bare_split) ∧
       blank (source_name Sample.bare_split) ∧
       category r ≠ "Uncategorized" ∧
       source r ≠ "Unknown account".
Proof.
  eexists. split; [reflexivity|].
  split_and!; [by left|by right; right|done|done].
Qed.

Lemma missing_amount_is_zero_witness :
  @Decimal Sample.lib "0" = Some 0%Qc ∧
  raw_amount Sample.bare_split = Missing ∧
  ∃ r, @parse_transaction Sample.lib None "withdrawal" Sample.bare_split = Done r ∧
       amount r = 0%Qc ∧
       booked_at r = mkdatetime (mkdate 2024 3 9) 0 None.
Proof.
  assert (@Decimal Sample.lib "0" = Some 0%Qc) as Hzero
    by (simpl; f_equal; apply Qc_is_canon; reflexivity).
  split; [exact Hzero|]. split; [reflexivity|].
  apply (missing_amount_is_zero None "withdrawal" Sample.bare_split
           "2024-03-09"); [exact Hzero|reflexivity..].
Defined.

(** C10, as stated, fails: without an amount and without a date the
    normalizer raises, as [isoparse] is handed [None]. *)
Lemma missing_amount_and_date_raises :
  raw_amount Sample.empty_split = Missing ∧
  @parse_transaction Sample.lib None "withdrawal" Sample.empty_split = Raised TypeError.
Proof. split; reflexivity. Qed.

(** ** Records outside the months *)







(** ** The monthly series over a time range *)

Lemma float_of_decimal_zero : float_of_decimal 0 = float_zero.
Proof. reflexivity. Qed.

Lemma month_total_none key items :
  Forall (fun tx => month_key tx ≠ key) items → month_total key items = 0%Qc.
Proof. intros Hnone. unfold month_total. by rewrite filter_none. Qed.

Lemma aggregate_monthly_lengths transactions (months : list date) :
  let series := aggregate_monthly transactions months in
  length (series_labels series) = length months ∧
  length (series_withdrawal series) = length months ∧
  length (series_deposit series) = length months ∧
  length (series_transfer series) = length months ∧
  length (series_net series) = length months.
Proof.
  simpl. unfold month_rows. by rewrite !length_fmap.
Qed.

Lemma aggregate_monthly_labels transactions (months : list date) :
  series_labels (aggregate_monthly transactions months) =
    strftime_Ym <$> months.
Proof. simpl. unfold month_rows. by rewrite <- list_fmap_compose. Qed.

(** A month without records reports zero in all four series. *)
Lemma aggregate_monthly_zero_fill (transactions : gmap string (list record))
    (months : list date) (i : nat) (m : date) :
  months !! i = Some m →
  (∀ tx_type items,
     transactions !! tx_type = Some items →
     Forall (fun tx => month_key tx ≠ strftime_Ym m) items) →
  let series := aggregate_monthly transactions months in
  series_withdrawal series !! i = Some float_zero ∧
  series_deposit series !! i = Some float_zero ∧
  series_transfer series !! i = Some float_zero ∧
  series_net series !! i = Some float_zero.
Proof.
  intros Hm Hnone. simpl. unfold month_rows.
  rewrite <- !list_fmap_compose, !list_lookup_fmap, Hm. simpl.
  assert (∀ tx_type,
            bucket_get (fill_buckets transactions) (strftime_Ym m) tx_type =
              0%Qc) as Hzero.
  { intros tx_type. rewrite bucket_get_fill.
    apply month_total_none.
    destruct (transactions !! tx_type) as [items|] eqn:Hitems; simpl.
    - by apply (Hnone tx_type).
    - constructor. }
  rewrite !Hzero. replace (0 - 0)%Qc with 0%Qc by ring.
  by rewrite float_of_decimal_zero.
Qed.

(** X9: For a range of valid dates with [start <= end_] that ends before
    December 9999, [month_sequence] yields the first days of the months from
    the month of [start] to the month of [end_], one for each calendar month
    and in ascending order, and [aggregate_monthly] over them gives one label
    per month, all distinct, four series of the same length, and zero in every
    series for a month without records. *)
Theorem monthly_series_over_range (transactions : gmap string (list record))
    (start end_ : date) :
  valid_date start → valid_date end_ →
  date_le start end_ = true →
  month_ordinal end_ < last_ordinal →
  ∃ months,
    month_sequence start end_ = Done months ∧
    Z.of_nat (length months) = month_count start end_ ∧
    1 ≤ month_count start end_ ∧
    (∀ i : nat,
       Z.of_nat i < month_count start end_ →
       months !! i = Some (month_of_ordinal (month_ordinal start + Z.of_nat i))) ∧
    months !! 0%nat = Some (month_start start) ∧
    last months = Some (month_start end_) ∧
    let series := aggregate_monthly transactions months in
    series_labels series = strftime_Ym <$> months ∧
    NoDup (series_labels series) ∧
    length (series_withdrawal series) = length months ∧
    length (series_deposit series) = length months ∧
    length (series_transfer series) = length months ∧
    length (series_net series) = length months ∧
    ∀ (i : nat) (m : date),
      months !! i = Some m →
      (∀ tx_type items,
         transactions !! tx_type = Some items →
         Forall (fun tx => month_key tx ≠ strftime_Ym m) items) →
      series_withdrawal series !! i = Some float_zero ∧
      series_deposit series !! i = Some float_zero ∧
      series_transfer series !! i = Some float_zero ∧
      series_net series !! i = Some float_zero.
Proof.
  intros Hstart%valid_date_in_year_range Hend%valid_date_in_year_range Hle Hlast.
  pose proof (date_le_month_ordinal _ _ Hstart Hend Hle) as Hord.
  pose proof (in_year_range_ordinal _ Hstart) as Hso.
  pose proof (in_year_range_ordinal _ Hend) as Heo.
  unfold month_count.
  set (n := month_ordinal end_ - month_ordinal start + 1).
  assert (1 ≤ n) as Hn by lia.
  exists (month_of_ordinal <$> seqZ (month_ordinal start) n).
  assert (∀ i : nat, Z.of_nat i < n →
            (month_of_ordinal <$> seqZ (month_ordinal start) n) !! i =
              Some (month_of_ordinal (month_ordinal start + Z.of_nat i)))
    as Hlookup.
  { intros i Hi. rewrite list_lookup_fmap.
    by rewrite (proj2 (lookup_seqZ _ _ _ _)) by (split; [done|lia]). }
  split_and!.
  - rewrite month_sequence_spec by done.
    destruct (Z.ltb_spec (month_ordinal end_) (month_ordinal start)); [lia|].
    destruct (Z.eqb_spec (month_ordinal end_) last_ordinal); [lia|done].
  - rewrite length_fmap, length_seqZ. lia.
  - done.
  - done.
  - rewrite (Hlookup 0%nat) by lia.
    rewrite Z.add_0_r. f_equal. apply month_of_ordinal_start, Hstart.
  - rewrite last_lookup, length_fmap, length_seqZ.
    rewrite (Hlookup (Nat.pred (Z.to_nat n))) by lia.
    replace (month_ordinal start + Z.of_nat (Nat.pred (Z.to_nat n)))
      with (month_ordinal end_) by lia.
    f_equal. apply month_of_ordinal_start, Hend.
  - apply aggregate_monthly_labels.
  - rewrite aggregate_monthly_labels. apply NoDup_month_labels; lia.
  - apply aggregate_monthly_lengths.
  - apply aggregate_monthly_lengths.
  - apply aggregate_monthly_lengths.
  - apply aggregate_monthly_lengths.
  - intros i m. apply aggregate_monthly_zero_fill.
Qed.

(** A range that ends in December 9999 makes [month_sequence] raise: after
    the last month the loop steps to January 10000. *)
Lemma month_sequence_december_9999 (start end_ : date) :
  valid_date start → valid_date end_ →
  date_le start end_ = true →
  month_ordinal end_ = last_ordinal →
  month_sequence start end_ = Raised ValueError.
Proof.
  intros Hstart%valid_date_in_year_range Hend%valid_date_in_year_range Hle Hlast.
  pose proof (date_le_month_ordinal _ _ Hstart Hend Hle) as Hord.
  rewrite month_sequence_spec by done.
  destruct (Z.ltb_spec (month_ordinal end_) (month_ordinal start)); [lia|].
  by destruct (Z.eqb_spec (month_ordinal end_) last_ordinal).
Qed.

(** ** The paginated fetcher *)

Lemma extend_each_app {A B} (f : A → outcome (list B)) (xs : list A)
    (ys : list B) :
  extend_each f xs ys = new ← extend_each f xs []; Done (ys ++ new).
Proof.
  revert ys. induction xs as [|x xs IH]; intros ys; simpl.
  - by rewrite app_nil_r.
  - destruct (f x) as [new| |]; simpl; [|done..].
    rewrite (IH (ys ++ new)), (IH new).
    destruct (extend_each f xs []) as [rest| |]; simpl; [|done..].
    by rewrite app_assoc.
Qed.

Section Fetcher.

Context `{PyLib}.

Variable api : request → response.

Variable self : FireflyClient.

Variables (transaction_type : string) (start_date end_date : date).

Variable page_size : Z.

Lemma total_pages_or_reported p page T :
  reported_pages p = Some T → total_pages_or p page = Done T.
Proof.
  unfold reported_pages, total_pages_or.
  destruct p as [groups [| |[[| |[[| |n]]]]]]; simpl; try done.
  by intros [= ->].
Qed.

Lemma total_pages_or_absent p page :
  pagination_absent p → total_pages_or p page = Done page.
Proof.
  unfold total_pages_or.
  intros [Hmeta|(m & Hmeta & [Hpg|(pg & Hpg & Htotal)])];
    rewrite Hmeta; simpl; [done|rewrite Hpg..]; simpl; [done|].
  by rewrite Htotal.
Qed.

Lemma fetch_page_Done page transactions p total new :
  api (params self transaction_type start_date end_date page_size page) =
    Success p →
  total_pages_or p page = Done total →
  page_records api self transaction_type start_date end_date page_size page =
    Done new →
  fetch_page api self transaction_type start_date end_date page_size page
    transactions =
    Done (transactions ++ new, page >=? total).
Proof.
  unfold page_records, fetch_page. intros -> Htotal.
  destruct (dict_get_default (data p) []) as [groups|]; [|done].
  intros Hnew. rewrite extend_each_app, Hnew. simpl. by rewrite Htotal.
Qed.

(** The loop from [page] on, when every page up to [T] answers, reports
    [T] pages and normalizes. *)
Lemma fetch_loop_pages (T : Z) (pages : Z → payload)
    (records : Z → list record) (n : nat) :
  ∀ (fuel : nat) (page : Z) (transactions : list record) (log : list request),
    Z.of_nat n = T - page →
    (n < fuel)%nat →
    (∀ q, page ≤ q ≤ T →
       api (params self transaction_type start_date end_date page_size q) =
         Success (pages q) ∧
       reported_pages (pages q) = Some T ∧
       page_records api self transaction_type start_date end_date page_size q =
         Done (records q)) →
    fetch_loop api self transaction_type start_date end_date page_size
      fuel page transactions log =
      (Done (transactions ++ concat (records <$> seqZ page (T - page + 1))),
       log ++ (params self transaction_type start_date end_date page_size <$>
                 seqZ page (T - page + 1))).
Proof.
  induction n as [|n IH]; intros fuel page transactions log Hn Hfuel Hpages;
    (destruct fuel as [|fuel]; [lia|]); simpl;
    destruct (Hpages page) as (Hpage & Hreported & Hrecords); try lia;
    rewrite (fetch_page_Done page transactions (pages page) T (records page))
      by auto using total_pages_or_reported.
  - destruct (Z.geb_spec page T); [|lia].
    replace (T - page + 1) with 1 by lia.
    change (seqZ page 1) with [page]. simpl. by rewrite app_nil_r.
  - destruct (Z.geb_spec page T); [lia|].
    rewrite (IH fuel (page + 1)) by (try lia; intros; apply Hpages; lia).
    rewrite (seqZ_cons page) by lia. simpl.
    replace (Z.pred (T - page + 1)) with (T - (page + 1) + 1) by lia.
    by rewrite <- !app_assoc.
Qed.

(** C6 (amended): when each of the pages 1 to [T] answers, reports [T]
    pages in its metadata and holds only transactions that normalize,
    [fetch_transactions] ends after exactly the [T] requests for the
    pages 1 to [T], in this order, and returns the records of these
    pages, page after page; and a page that answers and normalizes
    without pagination metadata is the last one requested. *)
Theorem fetch_transactions_pages (T : Z) (pages : Z → payload)
    (records : Z → list record) (fuel : nat) :
  1 ≤ T →
  (∀ q, 1 ≤ q ≤ T →
     api (params self transaction_type start_date end_date page_size q) =
       Success (pages q) ∧
     reported_pages (pages q) = Some T ∧
     page_records api self transaction_type start_date end_date page_size q =
       Done (records q)) →
  (Z.to_nat T ≤ fuel)%nat →
  fetch_transactions_log api self transaction_type start_date end_date
    page_size fuel =
    (Done (concat (records <$> seqZ 1 T)),
     params self transaction_type start_date end_date page_size <$> seqZ 1 T) ∧
  ∀ (more : nat) (page : Z) (p : payload) (transactions new : list record)
    (log : list request),
    api (params self transaction_type start_date end_date page_size page) =
      Success p →
    pagination_absent p →
    page_records api self transaction_type start_date end_date page_size page =
      Done new →
    fetch_loop api self transaction_type start_date end_date page_size
      (S more) page transactions log =
      (Done (transactions ++ new),
       log ++ [params self transaction_type start_date end_date page_size page]).
Proof.
  intros HT Hpages Hfuel. split.
  - unfold fetch_transactions_log.
    rewrite (fetch_loop_pages T pages records (Z.to_nat (T - 1)))
      by (done || lia).
    by replace (T - 1 + 1) with T by lia.
  - intros more page p transactions new log Hpage Habsent Hnew. simpl.
    rewrite (fetch_page_Done page transactions p page new)
      by auto using total_pages_or_absent.
    by destruct (Z.geb_spec page page); [|lia].
Qed.

End Fetcher.

(** ** [prepare_context] *)

Lemma float_div_int_month_count (x : float) (months : list date) :
  float_div_int x (Z.of_nat (length months) `max` 1) =
    Done (SFdiv prec emax x (float_of_int (Z.of_nat (length months) `max` 1))).
Proof.
  unfold float_div_int.
  by destruct (Z.eqb_spec (Z.of_nat (length months) `max` 1) 0); [lia|].
Qed.

Lemma lookup_key_Done {A} (d : gmap string A) key a :
  lookup_key d key = Done a ↔ d !! key = Some a.
Proof.
  unfold lookup_key. destruct (d !! key); split; congruence.
Qed.

Lemma collect_results_Done future order transactions result :
  collect_results future order transactions = Done result →
  (∀ tx_type items, transactions !! tx_type = Some items →
                    future tx_type = Done items) →
  ∀ tx_type items, result !! tx_type = Some items → future tx_type = Done items.
Proof.
  revert transactions.
  induction order as [|ty order IH]; intros transactions; simpl.
  - by intros [= ->].
  - intros (items & Hitems & Hrest)%bind_Done Hacc.
    apply (IH _ Hrest). intros ty' items'.
    destruct (decide (ty = ty')) as [<-|Hne].
    + rewrite lookup_insert_eq. by intros [= <-].
    + rewrite lookup_insert_ne by done. apply Hacc.
Qed.

Lemma run_fetches_Done future order result :
  run_fetches future order = Done result →
  ∀ tx_type items, result !! tx_type = Some items → future tx_type = Done items.
Proof.
  unfold run_fetches. destruct (existsb _ _); [done|].
  intros Hcollect. apply (collect_results_Done _ _ _ _ Hcollect).
  intros tx_type items. by rewrite lookup_empty.
Qed.

Section Pipeline.

Context `{PyLib}.

(** What a context that [prepare_context] returns is made of. *)
Lemma prepare_context_Done fuel env config ctx :
  prepare_context fuel env config = Done ctx →
  ∃ months transactions withdrawals deposits transfers,
    context_months (start_date_of env config) (end_date_of env config) =
      Done months ∧
    months ≠ [] ∧
    run_fetches
      (fun tx_type =>
         fetch_transactions (api env) (new_client config) tx_type
           (start_date_of env config) (end_date_of env config) 100 fuel)
      (completed env) = Done transactions ∧
    transactions !! "withdrawal" = Some withdrawals ∧
    transactions !! "deposit" = Some deposits ∧
    transactions !! "transfer" = Some transfers ∧
    let month_count := Z.of_nat (length months) `max` 1 in
    let series := aggregate_monthly transactions months in
    let totals := aggregate_totals transactions in
    ctx = {|
      monthly_labels := series_labels series;
      monthly_withdrawals := series_withdrawal series;
      monthly_deposits := series_deposit series;
      monthly_transfers := series_transfer series;
      monthly_net := series_net series;
      totals := totals;
      average_withdrawal :=
        SFdiv prec emax (default float_zero (totals !! "withdrawal"))
          (float_of_int month_count);
      average_deposit :=
        SFdiv prec emax (default float_zero (totals !! "deposit"))
          (float_of_int month_count);
      average_net :=
        SFdiv prec emax (default float_zero (totals !! "net"))
          (float_of_int month_count);
      top_spending_categories :=
        top_breakdown withdrawals KCategory default_limit;
      top_income_categories := top_breakdown deposits KCategory default_limit;
      top_source_accounts := top_breakdown withdrawals KSource default_limit;
      top_destination_accounts :=
        top_breakdown deposits KDestination default_limit;
      top_transfer_accounts :=
        top_breakdown transfers KDestination default_limit;
      last_updated := utcnow env;
      date_range := (strftime_Ymd (start_date_of env config),
                     strftime_Ymd (end_date_of env config));
      ctx_months := Z.of_nat (length months);
      ctx_cache_ttl_minutes := None;
      last_updated_display := None |}.
Proof.
  unfold prepare_context, context_months.
  fold (start_date_of env config). fold (end_date_of env config).
  intros (months0 & Hmonths & Hrest)%bind_Done.
  set (months := match months0 with
                 | [] => [month_start (start_date_of env config)]
                 | _ => months0
                 end) in *.
  apply bind_Done in Hrest as (transactions & Hfetch & Hrest).
  rewrite !float_div_int_month_count in Hrest. simpl in Hrest.
  apply bind_Done in Hrest as (withdrawals & Hw%lookup_key_Done & Hrest).
  apply bind_Done in Hrest as (deposits & Hd%lookup_key_Done & Hrest).
  apply bind_Done in Hrest as (transfers & Ht%lookup_key_Done & Hrest).
  injection Hrest as <-.
  exists months, transactions, withdrawals, deposits, transfers.
  rewrite Hmonths. split_and!; try done.
  unfold months. by destruct months0.
Qed.


End Pipeline.

(** ** [DashboardCache.get] *)

Section Cache.

Context `{PyLib}.

Lemma fresh_value_Some self force_refresh now v :
  fresh_value self force_refresh now = Some v ↔
    force_refresh = false ∧
    ∃ entry, _entry self = Some entry ∧ now < expires_at entry ∧
             v = value entry.
Proof.
  unfold fresh_value. destruct (_entry self) as [entry|].
  - destruct force_refresh; simpl.
    + split; [done|]. by intros [? _].
    + destruct (Z.gtb_spec (expires_at entry) now).
      * split; [intros [= <-]; eauto|]. by intros (_ & ? & [= <-] & _ & ->).
      * split; [done|]. intros (_ & ? & [= <-] & ? & _). lia.
  - split; [done|]. by intros (_ & ? & ? & _).
Qed.

Lemma fresh_value_forced self now : fresh_value self true now = None.
Proof. unfold fresh_value. by destruct (_entry self). Qed.

Lemma get_fresh self fuel env config force_refresh now v :
  fresh_value self force_refresh now = Some v →
  get self fuel env config force_refresh now =
    {| returned := Done v; cache_after := self; pipeline_runs := 0 |}.
Proof. unfold get. by intros ->. Qed.

Lemma get_refresh self fuel env config force_refresh now :
  fresh_value self force_refresh now = None →
  get self fuel env config force_refresh now =
    match prepare_context fuel env config with
    | Done ctx =>
        {| returned := Done (stamp config ctx);
           cache_after :=
             {| _entry :=
                  Some {| value := stamp config ctx;
                          expires_at :=
                            now + timedelta_minutes (cache_ttl_minutes config) |} |};
           pipeline_runs := 1 |}
    | Raised e =>
        {| returned := Raised e; cache_after := self; pipeline_runs := 1 |}
    | Diverged =>
        {| returned := Diverged; cache_after := self; pipeline_runs := 1 |}
    end.
Proof. unfold get. by intros ->. Qed.

(** C3 (amended): (a) an entry that expires strictly after the current
    time is returned as it is, without a run of the pipeline, when the
    refresh is not forced; (b) when a call that is not forced finds no such
    entry and its run of the pipeline succeeds, a second call that is not
    forced and comes less than [ttl] after the first returns the same
    snapshot and leaves the cache as it is, so that the two calls run the
    pipeline exactly once; when the entry is fresh at both calls, both
    return it and the pipeline does not run; (c) a forced call runs the
    pipeline once, whatever the entry is. *)
Theorem cache_get_behaviour :
  (∀ self entry fuel env config now,
     _entry self = Some entry → now < expires_at entry →
     get self fuel env config false now =
       {| returned := Done (value entry); cache_after := self;
          pipeline_runs := 0 |}) ∧
  (∀ self fuel1 env1 config1 now1 fuel2 env2 config2 now2 ctx,
     fresh_value self false now1 = None →
     prepare_context fuel1 env1 config1 = Done ctx →
     now2 < now1 + timedelta_minutes (cache_ttl_minutes config1) →
     let first := get self fuel1 env1 config1 false now1 in
     let second := get (cache_after first) fuel2 env2 config2 false now2 in
     returned first = Done (stamp config1 ctx) ∧
     returned second = returned first ∧
     cache_after second = cache_after first ∧
     (pipeline_runs first + pipeline_runs second = 1)%nat) ∧
  (∀ self entry fuel1 env1 config1 now1 fuel2 env2 config2 now2,
     _entry self = Some entry →
     now1 < expires_at entry → now2 < expires_at entry →
     let first := get self fuel1 env1 config1 false now1 in
     let second := get (cache_after first) fuel2 env2 config2 false now2 in
     returned first = Done (value entry) ∧
     returned second = returned first ∧
     (pipeline_runs first + pipeline_runs second = 0)%nat) ∧
  (∀ self fuel env config now,
     let forced := get self fuel env config true now in
     pipeline_runs forced = 1%nat ∧
     returned forced = stamp config <$> prepare_context fuel env config).
Proof.
  split_and!.
  - intros self entry fuel env config now Hentry Hfresh.
    apply get_fresh, fresh_value_Some. eauto.
  - intros self fuel1 env1 config1 now1 fuel2 env2 config2 now2 ctx
      Hstale Hctx Hnow. simpl.
    rewrite (get_refresh self) by done. rewrite Hctx. simpl.
    rewrite (get_fresh _ _ _ _ _ _ (stamp config1 ctx)); [done|].
    apply fresh_value_Some. split; [done|]. eexists. by split_and!.
  - intros self entry fuel1 env1 config1 now1 fuel2 env2 config2 now2
      Hentry Hnow1 Hnow2. simpl.
    rewrite (get_fresh self _ _ _ _ _ (value entry))
      by (apply fresh_value_Some; eauto). simpl.
    rewrite (get_fresh self _ _ _ _ _ (value entry))
      by (apply fresh_value_Some; eauto). done.
  - intros self fuel env config now. simpl.
    rewrite get_refresh by apply fresh_value_forced.
    by destruct (prepare_context fuel env config).
Qed.

(** C7: when the run of the pipeline raises, [get] raises the same error
    and leaves the cache as it was; a call of [get] either returns the
    fresh entry, or stores and returns the snapshot of a run of
    [prepare_context] that ended well, or passes on the failure of the run
    and stores nothing; and a run that ended well has all three fetches
    ended well and builds the snapshot from the whole of their records. *)
Theorem pipeline_error_leaves_cache :
  (∀ self fuel env config force_refresh now e,
     fresh_value self force_refresh now = None →
     prepare_context fuel env config = Raised e →
     get self fuel env config force_refresh now =
       {| returned := Raised e; cache_after := self; pipeline_runs := 1 |}) ∧
  (∀ self fuel env config force_refresh now,
     let result := get self fuel env config force_refresh now in
     (∃ v, fresh_value self force_refresh now = Some v ∧
           returned result = Done v ∧ cache_after result = self) ∨
     (∃ ctx, prepare_context fuel env config = Done ctx ∧
             returned result = Done (stamp config ctx) ∧
             _entry (cache_after result) =
               Some {| value := stamp config ctx;
                       expires_at :=
                         now + timedelta_minutes (cache_ttl_minutes config) |}) ∨
     (∃ e, prepare_context fuel env config = Raised e ∧
           returned result = Raised e ∧ cache_after result = self) ∨
     (prepare_context fuel env config = Diverged ∧
      returned result = Diverged ∧ cache_after result = self)) ∧
  (∀ fuel env config ctx,
     prepare_context fuel env config = Done ctx →
     ∃ withdrawals deposits transfers,
       let fetch tx_type :=
         fetch_transactions (api env) (new_client config) tx_type
           (start_date_of env config) (end_date_of env config) 100 fuel in
       fetch "withdrawal" = Done withdrawals ∧
       fetch "deposit" = Done deposits ∧
       fetch "transfer" = Done transfers ∧
       totals ctx !! "withdrawal" =
         Some (float_of_decimal (total_amount withdrawals)) ∧
       totals ctx !! "deposit" =
         Some (float_of_decimal (total_amount deposits)) ∧
       totals ctx !! "transfer" =
         Some (float_of_decimal (total_amount transfers)) ∧
       top_spending_categories ctx =
         top_breakdown withdrawals KCategory default_limit ∧
       top_income_categories ctx =
         top_breakdown deposits KCategory default_limit ∧
       top_transfer_accounts ctx =
         top_breakdown transfers KDestination default_limit).
Proof.
  split_and!.
  - intros self fuel env config force_refresh now e Hstale Hraise.
    rewrite get_refresh by done. by rewrite Hraise.
  - intros self fuel env config force_refresh now. simpl.
    destruct (fresh_value self force_refresh now) as [v|] eqn:Hfresh.
    + left. rewrite (get_fresh _ _ _ _ _ _ v) by done. eauto.
    + right. rewrite get_refresh by done.
      destruct (prepare_context fuel env config) as [ctx|e|];
        [left|right; left|right; right]; eauto.
  - intros fuel env config ctx Hctx.
    apply prepare_context_Done in Hctx
      as (months & transactions & w & d & t & _ & _ & Hrun & Hw & Hd & Ht & ->).
    exists w, d, t. simpl.
    pose proof (run_fetches_Done _ _ _ Hrun) as Hfetch.
    rewrite !aggregate_totals_lookup, Hw, Hd, Ht by done.
    split_and!; try done; by apply Hfetch.
Qed.

End Cache.

(** ** Runs on the sample ledgers *)

Section SampleRuns.

#[local] Existing Instance Sample.lib.

Lemma fetch_transactions_pages_witness :
  let run :=
    fetch_transactions_log (Sample.paged false) Sample.client "withdrawal"
      Example2.january Example2.february 100 3 in
  run = (Done (concat (Example2.records <$> seqZ 1 3)),
         params Sample.client "withdrawal" Example2.january Example2.february
           100 <$> seqZ 1 3) ∧
  req_page <$> snd run = [1; 2; 3] ∧
  (tx_id <$> Example2.records 1) ++ (tx_id <$> Example2.records 2) ++
    (tx_id <$> Example2.records 3) = [Some "1"; Some "2"; Some "3"].
Proof.
  destruct (fetch_transactions_pages (Sample.paged false) Sample.client
              "withdrawal" Example2.january Example2.february 100
              3 Example2.pages Example2.records 3) as [Hrun _].
  - lia.
  - intros q Hq.
    assert (q = 1 ∨ q = 2 ∨ q = 3) as [-> | [-> | ->]] by lia;
      by vm_compute.
  - simpl. lia.
  - simpl. rewrite Hrun. split; [done|]. by vm_compute.
Defined.

(** C6, as stated, fails: the first page reports three pages, but one of
    its transactions has no date, and the fetcher raises after one
    request. *)
Lemma broken_record_stops_fetch :
  (∀ r, ∃ p, Sample.broken_first r = Success p ∧ reported_pages p = Some 3) ∧
  fetch_transactions_log Sample.broken_first Sample.client "withdrawal"
    Example2.january Example2.february 100 5 =
    (Raised TypeError,
     [params Sample.client "withdrawal" Example2.january Example2.february
        100 1]).
Proof.
  split; [|by vm_compute].
  intros r. by eexists.
Qed.

(** A ledger that always announces one more page keeps the loop going. *)
Example endless_pages_diverge :
  fst (fetch_transactions_log Sample.endless Sample.client "withdrawal"
         Example2.january Example2.february 100 50) = Diverged.
Proof. by vm_compute. Qed.

(** C3, as stated, fails: two calls that are not forced and lie 6
    microseconds apart, far less than the 10 minutes of [ttl]; the entry,
    fresh at the first call, has expired at the second one, which runs the
    pipeline and returns a new snapshot.  And with an entry that is fresh at
    both calls the pipeline does not run at all. *)
Lemma two_calls_within_ttl_differ :
  6 - 0 < timedelta_minutes (cache_ttl_minutes Sample.config) ∧
  returned (Example2.first_call 5) = Done Example2.snapshot ∧
  (∃ ctx, returned (Example2.second_call 5) = Done ctx ∧ last_updated ctx = 7) ∧
  last_updated Example2.snapshot = 0 ∧
  returned (Example2.first_call 5) ≠ returned (Example2.second_call 5) ∧
  (pipeline_runs (Example2.first_call 100%Z) +
   pipeline_runs (Example2.second_call 100%Z) = 0)%nat.
Proof.
  assert (∃ ctx, returned (Example2.second_call 5) = Done ctx ∧
                 last_updated ctx = 7) as Hsecond.
  { unfold Example2.second_call.
    rewrite get_refresh by reflexivity.
    destruct (prepare_context 1 (Sample.env Sample.ledger 7) Sample.config)
      as [ctx| |] eqn:Hctx; [|by vm_compute in Hctx..].
    exists (stamp Sample.config ctx). split; [done|].
    apply prepare_context_Done in Hctx
      as (? & ? & ? & ? & ? & _ & _ & _ & _ & _ & _ & ->). done. }
  assert (last_updated Example2.snapshot = 0) as Hfirst
    by (vm_compute; reflexivity).
  assert (returned (Example2.first_call 5) = Done Example2.snapshot) as Hhit
    by (unfold Example2.first_call;
        rewrite (get_fresh _ _ _ _ _ _ Example2.snapshot); reflexivity).
  split; [vm_compute; reflexivity|].
  split; [exact Hhit|].
  split; [exact Hsecond|].
  split; [exact Hfirst|].
  split.
  - destruct Hsecond as (ctx & Hctx & Hupdated). rewrite Hctx, Hhit.
    intros Heq. injection Heq as Heq.
    rewrite <- Heq, Hfirst in Hupdated. discriminate Hupdated.
  - vm_compute. reflexivity.
Qed.

(** C2 fails on the code for a range that ends in December 9999: the month
    loop steps past the last month of the calendar and raises, and with it
    [prepare_context]. *)
Theorem december_9999_raises :
  valid_date (mkdate 9999 12 1) ∧ valid_date (mkdate 9999 12 31) ∧
  date_le (mkdate 9999 12 1) (mkdate 9999 12 31) = true ∧
  month_sequence (mkdate 9999 12 1) (mkdate 9999 12 31) = Raised ValueError ∧
  ∀ fuel env,
    prepare_context fuel env Example2.last_december =
      Raised ValueError.
Proof.
  assert (month_sequence (mkdate 9999 12 1) (mkdate 9999 12 31) =
            Raised ValueError) as Hraise by by vm_compute.
  split; [repeat split; by vm_compute|].
  split; [repeat split; by vm_compute|].
  split; [reflexivity|].
  split; [exact Hraise|].
  intros fuel env. unfold prepare_context. simpl. by rewrite Hraise.
Qed.

Lemma cache_get_behaviour_witness :
  let first := get new_cache 1 (Sample.env Sample.ledger 0) Sample.config
                 false 0 in
  let second := get (cache_after first) 1 (Sample.env Sample.down 7)
                  Sample.config false 6 in
  fresh_value new_cache false 0 = None ∧
  6 < 0 + timedelta_minutes (cache_ttl_minutes Sample.config) ∧
  returned first = Done Example2.snapshot ∧
  returned second = returned first ∧
  (pipeline_runs first + pipeline_runs second = 1)%nat.
Proof.
  destruct (prepare_context 1 (Sample.env Sample.ledger 0) Sample.config)
    as [ctx| |] eqn:Hctx; [|by vm_compute in Hctx..].
  assert (Example2.snapshot = stamp Sample.config ctx) as Hsnapshot
    by (unfold Example2.snapshot; by rewrite Hctx).
  destruct cache_get_behaviour as (_ & Htwice & _).
  destruct (Htwice new_cache 1%nat (Sample.env Sample.ledger 0) Sample.config
              0 1%nat (Sample.env Sample.down 7) Sample.config 6 ctx)
    as (Hfirst & Hsecond & _ & Hruns);
    [reflexivity|exact Hctx|by vm_compute|].
  split; [reflexivity|]. split; [by vm_compute|].
  rewrite Hsnapshot. split; [exact Hfirst|]. split; [exact Hsecond|exact Hruns].
Defined.

Lemma pipeline_error_leaves_cache_witness :
  let result := get (Example2.cache 100) 1 (Sample.env Sample.down 7)
                  Sample.config true 6 in
  prepare_context 1 (Sample.env Sample.down 7) Sample.config =
    Raised (HTTPError 503) ∧
  returned result = Raised (HTTPError 503) ∧
  cache_after result = Example2.cache 100.
Proof.
  assert (prepare_context 1 (Sample.env Sample.down 7) Sample.config =
            Raised (HTTPError 503)) as Hdown by by vm_compute.
  destruct pipeline_error_leaves_cache as (Hraise & _).
  simpl. rewrite (Hraise (Example2.cache 100) 1%nat _ _ true 6 _ eq_refl Hdown).
  by split_and!.
Defined.


(** The worked example of the specification. *)
Example worked_example :
  month_sequence Example2.january Example2.february = Done Example1.months ∧
  let series := aggregate_monthly Example1.transactions Example1.months in
  let totals := aggregate_totals Example1.transactions in
  series_labels series = ["2024-01"; "2024-02"] ∧
  series_withdrawal series =
    [float_of_decimal (Q2Qc 100); float_of_decimal (Q2Qc 50)] ∧
  series_deposit series = [float_of_decimal (Q2Qc 300); float_zero] ∧
  series_net series =
    [float_of_decimal (Q2Qc 200); float_of_decimal (Q2Qc (-50))] ∧
  totals !! "withdrawal" = Some (float_of_decimal (Q2Qc 150)) ∧
  totals !! "deposit" = Some (float_of_decimal (Q2Qc 300)) ∧
  totals !! "net" = Some (float_of_decimal (Q2Qc 150)).
Proof. by vm_compute. Qed.

(** Equal sums keep the order in which their labels were first met. *)
Example ties_keep_first_seen_order :
  fst <$> top_breakdown Example2.ties KCategory default_limit =
    ["Travel"; "Rent"; "Food"; "Books"].
Proof. by vm_compute. Qed.

End SampleRuns.

(** * Further properties of the program *)

(** ** The fetch loop *)

Lemma seqZ_from_one_snoc (n : Z) : 1 ≤ n → seqZ 1 n = seqZ 1 (n - 1) ++ [n].
Proof.
  intros Hn. replace (seqZ 1 n) with (seqZ 1 ((n - 1) + 1)) by (f_equal; lia).
  rewrite seqZ_app by lia. f_equal.
  replace (1 + (n - 1)) with n by lia. by rewrite seqZ_cons by lia.
Qed.

Section FetchLoop.

Context `{PyLib}.

Variable api : request → response.

Variable self : FireflyClient.

Variables (transaction_type : string) (start_date end_date : date).

Variable page_size : Z.

Lemma fetch_page_Raised page transactions e :
  page_records api self transaction_type start_date end_date page_size page =
    Raised e →
  fetch_page api self transaction_type start_date end_date page_size page
    transactions = Raised e.
Proof.
  unfold page_records, fetch_page.
  destruct (api _) as [e'|p]; [by intros [= ->]|].
  destruct (dict_get_default (data p) []) as [groups|]; [|by intros [= ->]].
  intros Hraise. by rewrite extend_each_app, Hraise.
Qed.

Lemma fetch_loop_log fuel page transactions log :
  ∃ k : nat,
    (k ≤ fuel)%nat ∧ (fuel ≠ 0%nat → k ≠ 0%nat) ∧
    snd (fetch_loop api self transaction_type start_date end_date page_size
           fuel page transactions log) =
      log ++ (params self transaction_type start_date end_date page_size <$>
                seqZ page (Z.of_nat k)).
Proof.
  revert page transactions log.
  induction fuel as [|fuel IH]; intros page transactions log.
  - exists 0%nat. simpl. by rewrite app_nil_r.
  - simpl.
    destruct (fetch_page _ _ _ _ _ _ page transactions) as [[rs stop]|e|].
    + destruct stop.
      * exists 1%nat. split_and!; [lia|done|done].
      * destruct (IH (page + 1) rs
                    (log ++ [params self transaction_type start_date end_date
                               page_size page])) as (k & Hk & _ & ->).
        exists (S k). split_and!; [lia|done|].
        rewrite (seqZ_cons page) by lia. simpl.
        replace (Z.pred (Z.of_nat (S k))) with (Z.of_nat k) by lia.
        by rewrite <- app_assoc.
    + exists 1%nat. split_and!; [lia|done|done].
    + exists 1%nat. split_and!; [lia|done|done].
Qed.

(** X1: Whatever the ledger answers, the requests of one call are the pages 1,
    2, ..., k in this order, without a gap and without a repetition, for some
    k of at most the number of rounds the loop is given; each request goes to
    the transactions endpoint of the client with its bearer header and the
    type, range and page size of the call. *)
Theorem fetch_requests_are_consecutive (fuel : nat) :
  ∃ k : nat,
    (k ≤ fuel)%nat ∧ (fuel ≠ 0%nat → k ≠ 0%nat) ∧
    snd (fetch_transactions_log api self transaction_type start_date end_date
           page_size fuel) =
      (fun page =>
         {| req_endpoint := base_url self +:+ "/api/v1/transactions";
            req_authorization := authorization self;
            req_type := transaction_type;
            req_start := isoformat start_date;
            req_end := isoformat end_date;
            req_limit := page_size;
            req_page := page |}) <$> seqZ 1 (Z.of_nat k).
Proof.
  unfold fetch_transactions_log.
  destruct (fetch_loop_log fuel 1 [] []) as (k & Hk & Hpos & Hlog).
  exists k. by rewrite Hlog.
Qed.

(** The loop from [page] on, while the pages before [last] answer,
    normalize and report a total beyond their own number. *)
Lemma fetch_loop_continues (last : Z) (pages : Z → payload)
    (totals : Z → Z) (records : Z → list record) (n : nat) :
  ∀ (fuel : nat) (page : Z) (transactions : list record) (log : list request),
    Z.of_nat n = last - page →
    (∀ q, page ≤ q < last →
       api (params self transaction_type start_date end_date page_size q) =
         Success (pages q) ∧
       total_pages_or (pages q) q = Done (totals q) ∧
       q < totals q ∧
       page_records api self transaction_type start_date end_date page_size q =
         Done (records q)) →
    fetch_loop api self transaction_type start_date end_date page_size
      (n + fuel) page transactions log =
    fetch_loop api self transaction_type start_date end_date page_size
      fuel last
      (transactions ++ concat (records <$> seqZ page (last - page)))
      (log ++ (params self transaction_type start_date end_date page_size <$>
                 seqZ page (last - page))).
Proof.
  induction n as [|n IH]; intros fuel page transactions log Hn Hpages.
  - replace (last - page) with 0 by lia. replace page with last by lia.
    simpl. by rewrite !app_nil_r.
  - destruct (Hpages page) as (Hpage & Htotal & Hmore & Hrecords); [lia|].
    simpl.
    rewrite (fetch_page_Done api self transaction_type start_date end_date
               page_size page transactions (pages page) (totals page)
               (records page)) by done.
    destruct (Z.geb_spec page (totals page)); [lia|].
    rewrite (IH fuel (page + 1)) by (try lia; intros; apply Hpages; lia).
    rewrite (seqZ_cons page) by lia. simpl.
    replace (Z.pred (last - page)) with (last - (page + 1)) by lia.
    by rewrite <- !app_assoc.
Qed.

(** X2: The fetcher stops at the first page whose reported total does not
    exceed its own number: when the pages before [last] answer, normalize and
    report more pages, and the page [last] answers, normalizes and reports a
    total of at most [last], the call requests exactly the pages 1 to [last]
    and returns their records in page order. The totals that the pages report
    need not agree with one another. *)
Theorem fetch_stops_at_first_final_page (last : Z) (pages : Z → payload)
    (totals : Z → Z) (records : Z → list record) (fuel : nat) :
  1 ≤ last →
  (∀ q, 1 ≤ q ≤ last →
     api (params self transaction_type start_date end_date page_size q) =
       Success (pages q) ∧
     total_pages_or (pages q) q = Done (totals q) ∧
     page_records api self transaction_type start_date end_date page_size q =
       Done (records q)) →
  (∀ q, 1 ≤ q < last → q < totals q) →
  totals last ≤ last →
  (Z.to_nat last ≤ fuel)%nat →
  fetch_transactions_log api self transaction_type start_date end_date
    page_size fuel =
    (Done (concat (records <$> seqZ 1 last)),
     params self transaction_type start_date end_date page_size <$>
       seqZ 1 last).
Proof.
  intros Hlast Hpages Hmore Hfinal Hfuel. unfold fetch_transactions_log.
  replace fuel with (Z.to_nat (last - 1) + S (fuel - Z.to_nat last))%nat by lia.
  rewrite (fetch_loop_continues last pages totals records); [|lia|].
  2: { intros q Hq. destruct (Hpages q) as (? & ? & ?); [lia|].
       split_and!; auto. }
  destruct (Hpages last) as (Hpage & Htotal & Hrecords); [lia|]. simpl.
  rewrite (fetch_page_Done api self transaction_type start_date end_date
             page_size last _ (pages last) (totals last) (records last))
    by done.
  destruct (Z.geb_spec last (totals last)); [|lia].
  rewrite (seqZ_from_one_snoc last) by lia.
  rewrite !fmap_app, concat_app. simpl. by rewrite app_nil_r.
Qed.

(** X3: The fetcher does not retry and keeps nothing of a failed call: when
    the pages before [bad] answer, normalize and report more pages, and the
    page [bad] fails, be it that the request fails or that one of its
    transactions does not normalize, the call raises the error of that page
    after exactly the requests for the pages 1 to [bad]. *)
Theorem fetch_raises_at_first_failure (bad : Z) (pages : Z → payload)
    (totals : Z → Z) (records : Z → list record) (e : error) (fuel : nat) :
  1 ≤ bad →
  (∀ q, 1 ≤ q < bad →
     api (params self transaction_type start_date end_date page_size q) =
       Success (pages q) ∧
     total_pages_or (pages q) q = Done (totals q) ∧
     q < totals q ∧
     page_records api self transaction_type start_date end_date page_size q =
       Done (records q)) →
  page_records api self transaction_type start_date end_date page_size bad =
    Raised e →
  (Z.to_nat bad ≤ fuel)%nat →
  fetch_transactions_log api self transaction_type start_date end_date
    page_size fuel =
    (Raised e,
     params self transaction_type start_date end_date page_size <$>
       seqZ 1 bad).
Proof.
  intros Hbad Hpages Hraise Hfuel. unfold fetch_transactions_log.
  replace fuel with (Z.to_nat (bad - 1) + S (fuel - Z.to_nat bad))%nat by lia.
  rewrite (fetch_loop_continues bad pages totals records) by (done || lia).
  simpl. rewrite (fetch_page_Raised bad _ e) by done.
  rewrite (seqZ_from_one_snoc bad) by lia.
  by rewrite fmap_app.
Qed.

(** X4: The loop has no bound of its own: against a ledger whose every page
    answers, normalizes and reports a total beyond its own number, the call is
    still asking for the next page after any number of rounds. *)
Theorem fetch_goes_on_while_pages_remain (pages : Z → payload)
    (totals : Z → Z) (records : Z → list record) (fuel : nat) :
  (∀ q, 1 ≤ q →
     api (params self transaction_type start_date end_date page_size q) =
       Success (pages q) ∧
     total_pages_or (pages q) q = Done (totals q) ∧
     q < totals q ∧
     page_records api self transaction_type start_date end_date page_size q =
       Done (records q)) →
  fetch_transactions_log api self transaction_type start_date end_date
    page_size fuel =
    (Diverged,
     params self transaction_type start_date end_date page_size <$>
       seqZ 1 (Z.of_nat fuel)).
Proof.
  intros Hpages. unfold fetch_transactions_log.
  replace fuel with (fuel + 0)%nat at 1 by lia.
  rewrite (fetch_loop_continues (1 + Z.of_nat fuel) pages totals records)
    by (try lia; intros; apply Hpages; lia).
  simpl. by replace (1 + Z.of_nat fuel - 1) with (Z.of_nat fuel) by lia.
Qed.

End FetchLoop.

Section FetchRuns.

#[local] Existing Instance Sample.lib.

Lemma fetch_stops_at_first_final_page_witness :
  let run :=
    fetch_transactions_log Example3.shrinking Sample.client "withdrawal"
      Example2.january Example2.february 100 4 in
  req_page <$> snd run = [1; 2] ∧
  fmap (M := list) tx_id <$> fst run = Done [Some "1"; Some "2"].
Proof.
  cbv zeta.
  rewrite (fetch_stops_at_first_final_page Example3.shrinking Sample.client
             "withdrawal" Example2.january Example2.february 100 2
             Example3.shrinking_pages Example3.shrinking_totals
             Example3.shrinking_records 4).
  - by vm_compute.
  - lia.
  - intros q Hq. assert (q = 1 ∨ q = 2) as [-> | ->] by lia; by vm_compute.
  - intros q Hq. assert (q = 1) as -> by lia. by vm_compute.
  - by vm_compute.
  - simpl. lia.
Defined.

Lemma fetch_raises_at_first_failure_witness :
  fetch_transactions_log (Sample.paged true) Sample.client "withdrawal"
    Example2.january Example2.february 100 5 =
    (Raised TypeError,
     params Sample.client "withdrawal" Example2.january Example2.february 100
       <$> [1; 2; 3]).
Proof.
  rewrite (fetch_raises_at_first_failure (Sample.paged true) Sample.client
             "withdrawal" Example2.january Example2.february 100 3
             Example2.pages (fun _ => 3) Example2.records TypeError 5).
  - done.
  - lia.
  - intros q Hq. assert (q = 1 ∨ q = 2) as [-> | ->] by lia; by vm_compute.
  - by vm_compute.
  - simpl. lia.
Defined.

Lemma fetch_goes_on_while_pages_remain_witness :
  fetch_transactions_log Sample.endless Sample.client "withdrawal"
    Example2.january Example2.february 100 1000 =
    (Diverged,
     params Sample.client "withdrawal" Example2.january Example2.february 100
       <$> seqZ 1 1000).
Proof.
  rewrite (fetch_goes_on_while_pages_remain Sample.endless Sample.client
             "withdrawal" Example2.january Example2.february 100
             (fun q => Sample.page [] (Val (q + 1))) (fun q => q + 1)
             (fun _ => []) 1000).
  - done.
  - intros q Hq. split; [done|]. split; [done|]. split; [lia|done].
Defined.

End FetchRuns.

(** ** The normalizer *)


Section Groups.

Context `{PyLib}.



(** X6: The amount is read before the date: a transaction whose amount is
    [null] raises [InvalidOperation], since the text [None] is no number,
    whatever its date is and also when it has none. *)
Theorem null_amount_raises (description : option string)
    (transaction_type : string) (transaction : raw_transaction) :
  Decimal "None" = None →
  raw_amount transaction = Null →
  parse_transaction description transaction_type transaction =
    Raised InvalidOperation.
Proof.
  intros Hnone Hnull. unfold parse_transaction, parse_amount.
  by rewrite Hnull; simpl; rewrite Hnone.
Qed.

Lemma parse_transactions_Raised description transaction_type good bad rest e :
  Forall (fun transaction =>
            ∃ r, parse_transaction description transaction_type transaction =
                   Done r) good →
  parse_transaction description transaction_type bad = Raised e →
  parse_transactions description transaction_type (good ++ bad :: rest) =
    Raised e.
Proof.
  intros Hgood Hbad. induction Hgood as [|transaction good [r Hr] _ IH]; simpl.
  - by rewrite Hbad.
  - by rewrite Hr, IH.
Qed.

(** X7: A group is normalized up to its first transaction that fails, and the
    error of that transaction is the error of the group: the records of the
    transactions before it are dropped and the transactions after it are not
    looked at. *)
Theorem group_raises_first_failure (group : group_obj)
    (attributes : attributes_obj) (good rest : list raw_transaction)
    (bad : raw_transaction) (transaction_type : string) (e : error) :
  raw_attributes group = Val attributes →
  raw_transactions attributes = Val (good ++ bad :: rest) →
  Forall (fun transaction =>
            ∃ r, parse_transaction
                   (dict_get_default (raw_description attributes) "")
                   transaction_type transaction = Done r) good →
  parse_transaction (dict_get_default (raw_description attributes) "")
    transaction_type bad = Raised e →
  _parse_group group transaction_type = Raised e.
Proof.
  intros Hattributes Htransactions Hgood Hbad. unfold _parse_group.
  rewrite Hattributes. simpl. rewrite Htransactions. simpl.
  by apply parse_transactions_Raised.
Qed.

(** X8: The currency of a record is the currency code of its transaction when
    that is a non-empty text, else the foreign currency code when that is a
    non-empty text, else the empty text. *)
Theorem currency_falls_back (description : option string)
    (transaction_type : string) (transaction : raw_transaction) (r : record) :
  parse_transaction description transaction_type transaction = Done r →
  (¬ blank (currency_code transaction) →
   currency_code transaction = Val (currency r)) ∧
  (blank (currency_code transaction) →
   ¬ blank (foreign_currency_code transaction) →
   foreign_currency_code transaction = Val (currency r)) ∧
  (blank (currency_code transaction) →
   blank (foreign_currency_code transaction) →
   currency r = "").
Proof.
  intros (d & booked & _ & _ & ->)%parse_transaction_Done. simpl.
  unfold blank.
  destruct (currency_code transaction) as [| |code],
           (foreign_currency_code transaction) as [| |foreign]; simpl;
    repeat case_decide; subst; intuition congruence.
Qed.

End Groups.

Section GroupRuns.

#[local] Existing Instance Sample.lib.


Lemma null_amount_raises_witness :
  Decimal "None" = None ∧
  raw_date Example3.null_amount = Missing ∧
  parse_transaction None "withdrawal" Example3.null_amount =
    Raised InvalidOperation.
Proof.
  split; [done|]. split; [done|].
  by apply (null_amount_raises None "withdrawal" Example3.null_amount).
Defined.

Lemma group_raises_first_failure_witness :
  _parse_group Example3.mixed "withdrawal" = Raised TypeError.
Proof.
  apply (group_raises_first_failure Example3.mixed
           {| raw_description := Val "groceries";
              raw_transactions :=
                Val [Example3.charge; Sample.empty_split;
                     Example3.null_amount] |}
           [Example3.charge] [Example3.null_amount] Sample.empty_split
           "withdrawal" TypeError).
  - done.
  - done.
  - constructor; [|constructor]. eexists. by vm_compute.
  - by vm_compute.
Defined.

Lemma currency_falls_back_witness :
  ∃ r, parse_transaction None "withdrawal" Example3.foreign = Done r ∧
       blank (currency_code Example3.foreign) ∧
       currency r = "USD".
Proof.
  destruct (parse_transaction None "withdrawal" Example3.foreign)
    as [r|e|] eqn:Hrun; [|by vm_compute in Hrun..].
  exists r. split; [done|]. split; [by right; right|].
  destruct (currency_falls_back None "withdrawal" Example3.foreign r Hrun)
    as (_ & Hforeign & _).
  assert (foreign_currency_code Example3.foreign = Val "USD") as Hcode by done.
  rewrite Hforeign in Hcode.
  - by injection Hcode.
  - by right; right.
  - intros [|[|]]; done.
Defined.

End GroupRuns.

(** ** Month sequences *)

Lemma monthly_series_over_range_witness :
  ∃ months,
    month_sequence (mkdate 2023 11 15) (mkdate 2024 2 2) = Done months ∧
    Z.of_nat (length months) = 4 ∧
    months !! 0%nat = Some (mkdate 2023 11 1) ∧
    last months = Some (mkdate 2024 2 1) ∧
    NoDup (series_labels (aggregate_monthly Example1.transactions months)).
Proof.
  destruct (monthly_series_over_range Example1.transactions
              (mkdate 2023 11 15) (mkdate 2024 2 2))
    as (months & Hseq & Hlen & _ & _ & Hfirst & Hlast & _ & Hlabels & _).
  - repeat split; by vm_compute.
  - repeat split; by vm_compute.
  - done.
  - by vm_compute.
  - exists months. split; [exact Hseq|]. split; [exact Hlen|].
    split; [exact Hfirst|]. split; [exact Hlast|exact Hlabels].
Defined.

(** X10: The loop of [month_sequence] does not run at all exactly when the
    month of the end date lies before the month of the start date;
    [prepare_context] then falls back to the single month of the start date.
    *)
Theorem reversed_range_has_one_month (start end_ : date) :
  in_year_range start → in_year_range end_ →
  (month_sequence start end_ = Done [] ↔
     month_ordinal end_ < month_ordinal start) ∧
  (month_ordinal end_ < month_ordinal start →
   context_months start end_ = Done [month_start start]).
Proof.
  intros Hstart Hend.
  assert (month_ordinal end_ < month_ordinal start →
          month_sequence start end_ = Done []) as Hempty.
  { intros Hlt. rewrite month_sequence_spec by done.
    by destruct (Z.ltb_spec (month_ordinal end_) (month_ordinal start));
      [|lia]. }
  split; [split; [|done]|].
  - rewrite month_sequence_spec by done.
    destruct (Z.ltb_spec (month_ordinal end_) (month_ordinal start)); [done|].
    destruct (Z.eqb_spec (month_ordinal end_) last_ordinal); [done|].
    intros [= Hnil]. apply (f_equal length) in Hnil.
    rewrite length_fmap, length_seqZ in Hnil. simpl in Hnil. lia.
  - intros Hlt. unfold context_months. by rewrite Hempty.
Qed.

Lemma reversed_range_has_one_month_witness :
  month_sequence (mkdate 2024 3 1) (mkdate 2024 2 28) = Done [] ∧
  context_months (mkdate 2024 3 9) (mkdate 2024 2 28) =
    Done [mkdate 2024 3 1].
Proof.
  destruct (reversed_range_has_one_month (mkdate 2024 3 1) (mkdate 2024 2 28))
    as [Hnone _]; [by vm_compute..|].
  destruct (reversed_range_has_one_month (mkdate 2024 3 9) (mkdate 2024 2 28))
    as [_ Hone]; [by vm_compute..|].
  split; [apply Hnone|apply Hone]; by vm_compute.
Defined.

(** ** Aggregation *)

(** X11: The entry of a month in each series is the converted sum of the
    amounts of the records of one type whose month label is the label of that
    month; the net entry is the difference of the deposit and withdrawal sums,
    taken on the decimals and converted once. Records of other types and
    records of other months have no part in it. *)
Theorem monthly_series_entries (transactions : gmap string (list record))
    (months : list date) (i : nat) (m : date) :
  months !! i = Some m →
  let series := aggregate_monthly transactions months in
  let sum_of tx_type :=
    month_total (strftime_Ym m) (default [] (transactions !! tx_type)) in
  series_labels series !! i = Some (strftime_Ym m) ∧
  series_withdrawal series !! i = Some (float_of_decimal (sum_of "withdrawal")) ∧
  series_deposit series !! i = Some (float_of_decimal (sum_of "deposit")) ∧
  series_transfer series !! i = Some (float_of_decimal (sum_of "transfer")) ∧
  series_net series !! i =
    Some (float_of_decimal (sum_of "deposit" - sum_of "withdrawal")).
Proof.
  intros Hm. simpl. unfold month_rows.
  rewrite <- !list_fmap_compose, !list_lookup_fmap, Hm. simpl.
  by rewrite !bucket_get_fill.
Qed.

Lemma monthly_series_entries_witness :
  let series := aggregate_monthly Example1.transactions Example1.months in
  series_labels series !! 1%nat = Some "2024-02" ∧
  series_withdrawal series !! 1%nat = Some (float_of_decimal (Q2Qc 50)) ∧
  series_net series !! 1%nat = Some (float_of_decimal (Q2Qc (-50))).
Proof.
  destruct (monthly_series_entries Example1.transactions Example1.months
              1 (mkdate 2024 2 1) eq_refl)
    as (Hlabel & Hwithdrawal & _ & _ & Hnet).
  cbv zeta. rewrite Hlabel, Hwithdrawal, Hnet.
  split; [done|]. split; f_equal; f_equal; by apply Qc_is_canon.
Defined.

Lemma month_rows_insert (transactions : gmap string (list record))
    (months : list date) (tx_type : string) (items : list record) :
  tx_type ∉ submitted →
  month_rows (fill_buckets (<[tx_type := items]> transactions)) months =
    month_rows (fill_buckets transactions) months.
Proof.
  intros Hother. unfold month_rows. apply list_fmap_ext. intros _ month _.
  rewrite !bucket_get_fill.
  rewrite !lookup_insert_ne; [done|..];
    intros ->; apply Hother; unfold submitted;
    rewrite !elem_of_cons; tauto.
Qed.

(** X12: Only withdrawals, deposits and transfers enter the monthly series:
    records filed under any other type leave all of it as it is. They do get a
    total of their own, unless the type is called [net], in which case the
    difference of deposits and withdrawals takes its place. *)
Theorem other_types_stay_out_of_series
    (transactions : gmap string (list record)) (months : list date)
    (tx_type : string) (items : list record) :
  tx_type ∉ submitted →
  aggregate_monthly (<[tx_type := items]> transactions) months =
    aggregate_monthly transactions months ∧
  (tx_type ≠ "net" →
   aggregate_totals (<[tx_type := items]> transactions) !! tx_type =
     Some (float_of_decimal (total_amount items))) ∧
  aggregate_totals (<[tx_type := items]> transactions) !! "net" =
    aggregate_totals transactions !! "net".
Proof.
  intros Hother.
  assert (tx_type ≠ "deposit" ∧ tx_type ≠ "withdrawal") as [Hd Hw].
  { split; intros ->; apply Hother; unfold submitted;
      rewrite !elem_of_cons; tauto. }
  split; [|split].
  - unfold aggregate_monthly. by rewrite month_rows_insert.
  - intros Hnet. rewrite aggregate_totals_lookup by done.
    by rewrite lookup_insert_eq.
  - rewrite !aggregate_totals_net.
    rewrite (aggregate_totals_lookup _ "deposit") by done.
    rewrite (aggregate_totals_lookup _ "withdrawal") by done.
    rewrite (aggregate_totals_lookup transactions "deposit") by done.
    rewrite (aggregate_totals_lookup transactions "withdrawal") by done.
    by rewrite !lookup_insert_ne by done.
Qed.

Lemma other_types_stay_out_of_series_witness :
  let fees := [Sample.tx "fee" (mkdate 2024 1 9) (Q2Qc 4) "Bank"] in
  aggregate_monthly (<["fee" := fees]> Example1.transactions) Example1.months =
    aggregate_monthly Example1.transactions Example1.months ∧
  aggregate_totals (<["fee" := fees]> Example1.transactions) !! "fee" =
    Some (float_of_decimal (Q2Qc 4)).
Proof.
  cbv zeta.
  destruct (other_types_stay_out_of_series Example1.transactions
              Example1.months "fee"
              [Sample.tx "fee" (mkdate 2024 1 9) (Q2Qc 4) "Bank"])
    as (Hseries & Htotal & _).
  - unfold submitted. rewrite !elem_of_cons, elem_of_nil.
    intros [|[|[|]]]; done.
  - split; [exact Hseries|]. rewrite Htotal by done.
    f_equal; f_equal; by apply Qc_is_canon.
Defined.

(** X13: The totals have one entry for each type of the input and the entry
    [net]; [net] is the float difference of the converted deposit and
    withdrawal sums, where a type that is absent counts as zero. *)
Theorem aggregate_totals_keys (transactions : gmap string (list record)) :
  dom (aggregate_totals transactions) = dom transactions ∪ {["net"]} ∧
  aggregate_totals transactions !! "net" =
    Some (float_sub
            (float_of_decimal
               (total_amount (default [] (transactions !! "deposit"))))
            (float_of_decimal
               (total_amount (default [] (transactions !! "withdrawal"))))).
Proof.
  split.
  - unfold aggregate_totals. rewrite dom_insert_L, dom_fmap_L.
    apply union_comm_L.
  - rewrite aggregate_totals_net.
    rewrite (aggregate_totals_lookup _ "deposit") by done.
    rewrite (aggregate_totals_lookup _ "withdrawal") by done.
    by destruct (transactions !! "deposit"), (transactions !! "withdrawal").
Qed.




Lemma group_totals_length key items :
  length (group_totals key items) =
    length (remove_dups (label_of key <$> items)).
Proof.
  rewrite <- (length_fmap fst (group_totals key items)).
  apply Permutation_length, NoDup_Permutation.
  - apply group_totals_NoDup.
  - apply NoDup_remove_dups.
  - intros label. rewrite elem_of_remove_dups, list_elem_of_fmap. split.
    + intros ([name total] & -> & Hin). by apply group_totals_elem in Hin as [? _].
    + intros Hin. exists (label, label_total key items label).
      split; [done|]. by apply group_totals_elem.
Qed.



(** X15: The breakdown has as many entries as the limit allows and as there
    are distinct labels; a negative limit cuts that many entries off the end
    instead; and the entries for a smaller limit are the first entries for a
    larger one. *)
Theorem top_breakdown_limits (items : list record) (key : text_key)
    (limit limit' : Z) :
  let labels := length (remove_dups (label_of key <$> items)) in
  (0 ≤ limit →
   length (top_breakdown items key limit) =
     (Z.to_nat limit `min` labels)%nat) ∧
  (limit < 0 →
   length (top_breakdown items key limit) =
     (labels - Z.to_nat (- limit))%nat) ∧
  (0 ≤ limit ≤ limit' →
   top_breakdown items key limit `prefix_of` top_breakdown items key limit').
Proof.
  cbv zeta. rewrite <- group_totals_length.
  rewrite <- (Permutation_length (sorted_desc_Permutation _)).
  unfold top_breakdown, ranked_totals, slice_to. split; [|split].
  - intros Hlimit. destruct (Z.ltb_spec limit 0); [lia|].
    by rewrite length_fmap, length_take.
  - intros Hlimit. destruct (Z.ltb_spec limit 0); [|lia].
    rewrite length_fmap, length_take. lia.
  - intros [Hlimit Hle].
    destruct (Z.ltb_spec limit 0); [lia|].
    destruct (Z.ltb_spec limit' 0); [lia|].
    set (sorted := sorted_desc (group_totals key items)).
    replace (Z.to_nat limit') with
      (Z.to_nat limit + (Z.to_nat limit' - Z.to_nat limit))%nat by lia.
    rewrite <- take_take_drop, fmap_app. by eexists.
Qed.

Lemma top_breakdown_limits_witness :
  length (top_breakdown Example2.ties KCategory 2) = 2%nat ∧
  length (top_breakdown Example2.ties KCategory (-1)) = 3%nat ∧
  top_breakdown Example2.ties KCategory 2 `prefix_of`
    top_breakdown Example2.ties KCategory default_limit.
Proof.
  destruct (top_breakdown_limits Example2.ties KCategory 2 default_limit)
    as (Hlength & _ & Hprefix).
  destruct (top_breakdown_limits Example2.ties KCategory (-1) 0)
    as (_ & Hnegative & _).
  split; [by rewrite Hlength|]. split; [by rewrite Hnegative|].
  apply Hprefix. unfold default_limit. lia.
Defined.

(** ** The three fetches of [prepare_context] *)

Lemma collect_results_lookup future order transactions result :
  collect_results future order transactions = Done result →
  ∀ tx_type,
    result !! tx_type =
      if decide (tx_type ∈ order)
      then match future tx_type with Done items => Some items | _ => None end
      else transactions !! tx_type.
Proof.
  revert transactions.
  induction order as [|ty order IH]; intros transactions; simpl.
  - intros [= ->] tx_type.
    by destruct (decide (tx_type ∈ [])) as [?%elem_of_nil|].
  - intros (items & Hitems & Hrest)%bind_Done tx_type.
    rewrite (IH _ Hrest).
    destruct (decide (tx_type ∈ order)) as [Hin|Hout].
    + by rewrite decide_True by (by right).
    + destruct (decide (tx_type = ty)) as [->|Hne].
      * rewrite decide_True by left. by rewrite lookup_insert_eq, Hitems.
      * rewrite decide_False by (rewrite elem_of_cons; tauto).
        by rewrite lookup_insert_ne.
Qed.

Lemma collect_results_is_Done future order transactions :
  (∀ tx_type, tx_type ∈ order → ∃ items, future tx_type = Done items) →
  ∃ result, collect_results future order transactions = Done result.
Proof.
  revert transactions.
  induction order as [|ty order IH]; intros transactions Hall; simpl.
  - by eexists.
  - destruct (Hall ty) as [items ->]; [left|]. simpl.
    apply IH. intros tx_type Hin. apply Hall. by right.
Qed.

Lemma collect_results_Raised future before tx_type after transactions e :
  (∀ ty, ty ∈ before → ∃ items, future ty = Done items) →
  future tx_type = Raised e →
  collect_results future (before ++ tx_type :: after) transactions = Raised e.
Proof.
  revert transactions.
  induction before as [|ty before IH]; intros transactions Hbefore Hraise;
    simpl.
  - by rewrite Hraise.
  - destruct (Hbefore ty) as [items ->]; [left|]. simpl.
    apply IH; [|done]. intros ty' Hin. apply Hbefore. by right.
Qed.

Lemma run_fetches_Permutation future order order' :
  order ≡ₚ order' →
  (∀ tx_type, tx_type ∈ order → ∃ items, future tx_type = Done items) →
  run_fetches future order' = run_fetches future order.
Proof.
  intros Hperm Hall. unfold run_fetches. destruct (existsb _ _); [done|].
  destruct (collect_results_is_Done future order ∅ Hall) as [result Hresult].
  destruct (collect_results_is_Done future order' ∅) as [result' Hresult'].
  { intros tx_type Hin. apply Hall. by rewrite Hperm. }
  rewrite Hresult, Hresult'. f_equal. apply map_eq. intros tx_type.
  rewrite (collect_results_lookup _ _ _ _ Hresult).
  rewrite (collect_results_lookup _ _ _ _ Hresult').
  destruct (decide (tx_type ∈ order)) as [Hin|Hout].
  - by rewrite decide_True by (by rewrite <- Hperm).
  - by rewrite decide_False by (by rewrite <- Hperm).
Qed.

Lemma existsb_is_diverged (future : string → outcome (list record))
    (types : list string) :
  existsb (fun tx_type => is_diverged (future tx_type)) types = true ↔
    ∃ tx_type, tx_type ∈ types ∧ future tx_type = Diverged.
Proof.
  rewrite existsb_exists. split.
  - intros (tx_type & Hin%list_elem_of_In & Hdiverged).
    exists tx_type. split; [done|]. by destruct (future tx_type).
  - intros (tx_type & Hin%list_elem_of_In & Hdiverged).
    exists tx_type. by rewrite Hdiverged.
Qed.

Section Fetches.

Context `{PyLib}.

(** X16: When the three fetches succeed, the context does not depend on the
    order in which they complete. *)
Theorem completion_order_is_immaterial (fuel : nat) (env env' : environment)
    (config : AppConfig) :
  api env' = api env → today env' = today env → utcnow env' = utcnow env →
  completed env ≡ₚ submitted → completed env' ≡ₚ submitted →
  (∀ tx_type,
     tx_type ∈ submitted →
     ∃ items,
       fetch_transactions (api env) (new_client config) tx_type
         (start_date_of env config) (end_date_of env config) 100 fuel =
         Done items) →
  prepare_context fuel env' config = prepare_context fuel env config.
Proof.
  intros Hapi Htoday Hutcnow Horder Horder' Hall.
  unfold prepare_context. rewrite Hapi, Htoday, Hutcnow.
  fold (start_date_of env config). fold (end_date_of env config).
  destruct (month_sequence _ _) as [months| |]; [|done..].
  cbn [mbind outcome_bind].
  rewrite (run_fetches_Permutation _ (completed env) (completed env')).
  - done.
  - by rewrite Horder, Horder'.
  - intros tx_type Hin. apply Hall. by rewrite <- Horder.
Qed.

(** X17: The refresh raises the error of the fetch that is the first to fail
    in the order of completion, provided that every fetch ends. *)
Theorem first_failed_fetch_is_raised (fuel : nat) (env : environment)
    (config : AppConfig) (months : list date) (before after : list string)
    (tx_type : string) (e : error) :
  let fetch tx_type :=
    fetch_transactions (api env) (new_client config) tx_type
      (start_date_of env config) (end_date_of env config) 100 fuel in
  month_sequence (start_date_of env config) (end_date_of env config) =
    Done months →
  (∀ ty, ty ∈ submitted → fetch ty ≠ Diverged) →
  completed env = before ++ tx_type :: after →
  (∀ ty, ty ∈ before → ∃ items, fetch ty = Done items) →
  fetch tx_type = Raised e →
  prepare_context fuel env config = Raised e.
Proof.
  intros fetch Hmonths Hend Horder Hbefore Hraise.
  unfold prepare_context.
  fold (start_date_of env config). fold (end_date_of env config).
  rewrite Hmonths. cbn [mbind outcome_bind]. fold fetch.
  unfold run_fetches.
  destruct (existsb _ submitted) eqn:Hendless.
  - apply existsb_is_diverged in Hendless as (ty & Hin & Hdiverged).
    by destruct (Hend ty Hin).
  - rewrite Horder.
    by rewrite (collect_results_Raised fetch before tx_type after ∅ e).
Qed.

(** X18: A fetch that does not end keeps the refresh from ending, also when
    another fetch has failed: the executor waits for all three. *)
Theorem endless_fetch_blocks_refresh (fuel : nat) (env : environment)
    (config : AppConfig) (months : list date) (tx_type : string) :
  month_sequence (start_date_of env config) (end_date_of env config) =
    Done months →
  tx_type ∈ submitted →
  fetch_transactions (api env) (new_client config) tx_type
    (start_date_of env config) (end_date_of env config) 100 fuel =
    Diverged →
  prepare_context fuel env config = Diverged.
Proof.
  intros Hmonths Hin Hdiverged. unfold prepare_context.
  fold (start_date_of env config). fold (end_date_of env config).
  rewrite Hmonths. cbn [mbind outcome_bind]. unfold run_fetches.
  destruct (existsb _ submitted) eqn:Hendless; [done|].
  assert (existsb
            (fun ty =>
               is_diverged
                 (fetch_transactions (api env) (new_client config) ty
                    (start_date_of env config) (end_date_of env config)
                    100 fuel)) submitted = true) as Htrue.
  { apply existsb_is_diverged. by exists tx_type. }
  by rewrite Htrue in Hendless.
Qed.

(** X19: A range whose last month is December 9999 fails the refresh with
    [ValueError] before any request is made: the result is the same for every
    ledger, clock and order of completion. *)
Theorem range_ending_december_9999_fails (fuel : nat) (env : environment)
    (config : AppConfig) (start end_ : date) :
  period_start config = Some start → period_end config = Some end_ →
  in_year_range start →
  year end_ = 9999 → month end_ = 12 →
  prepare_context fuel env config = Raised ValueError.
Proof.
  intros Hstart Hend Hrange Hyear Hmonth. unfold prepare_context.
  rewrite Hstart, Hend. simpl.
  assert (in_year_range end_) as Hrange'.
  { unfold in_year_range, MINYEAR, MAXYEAR. lia. }
  rewrite month_sequence_spec by done.
  pose proof (in_year_range_ordinal _ Hrange) as Hordinal.
  assert (month_ordinal end_ = last_ordinal) as Hlast.
  { unfold month_ordinal, last_ordinal, MAXYEAR. lia. }
  destruct (Z.ltb_spec (month_ordinal end_) (month_ordinal start)); [lia|].
  by destruct (Z.eqb_spec (month_ordinal end_) last_ordinal).
Qed.

Lemma month_of_ordinal_in_year (y m : Z) :
  1 ≤ m ≤ 12 → month_of_ordinal (y * 12 + m) = mkdate y m 1.
Proof. intros Hm. exact (month_of_ordinal_start (mkdate y m 1) Hm). Qed.

(** X20: Without a configured period the dashboard covers the current year to
    date: the range runs from the first of January to today, and there is one
    month for each month of the year up to the current one. *)
Theorem default_period_is_year_to_date (fuel : nat) (env : environment)
    (config : AppConfig) (ctx : context) :
  period_start config = None → period_end config = None →
  valid_date (today env) →
  prepare_context fuel env config = Done ctx →
  date_range ctx =
    (strftime_Ymd (mkdate (year (today env)) 1 1),
     strftime_Ymd (today env)) ∧
  ctx_months ctx = month (today env) ∧
  monthly_labels ctx =
    (fun m => strftime_Ym (mkdate (year (today env)) m 1)) <$>
      seqZ 1 (month (today env)).
Proof.
  intros Hstart Hend Htoday Hctx.
  apply prepare_context_Done in Hctx
    as (months & transactions & w & d & t & Hmonths & _ & _ & _ & _ & _ & ->).
  unfold context_months, start_date_of, end_date_of in Hmonths.
  unfold start_date_of, end_date_of. rewrite Hstart, Hend in *.
  simpl in Hmonths. cbn [date_range ctx_months monthly_labels default].
  apply bind_Done in Hmonths as (months0 & Hseq & [= <-]).
  pose proof (valid_date_in_year_range _ Htoday) as [Hyear Hmonth].
  assert (in_year_range (mkdate (year (today env)) 1 1)) as Hjanuary.
  { split; simpl; [done|lia]. }
  rewrite month_sequence_spec in Hseq by (done || by split).
  unfold month_ordinal in Hseq. simpl in Hseq.
  destruct (Z.ltb_spec (year (today env) * 12 + month (today env))
              (year (today env) * 12 + 1)); [lia|].
  destruct (Z.eqb_spec (year (today env) * 12 + month (today env))
              last_ordinal); [done|].
  injection Hseq as <-.
  replace (year (today env) * 12 + month (today env) -
           (year (today env) * 12 + 1) + 1) with (month (today env)) by lia.
  assert ((month_of_ordinal <$>
             seqZ (year (today env) * 12 + 1) (month (today env))) =
          (fun m => mkdate (year (today env)) m 1) <$>
            seqZ 1 (month (today env))) as ->.
  { rewrite <- fmap_add_seqZ, <- list_fmap_compose.
    apply list_fmap_ext. intros i m [-> Hm]%lookup_seqZ. simpl.
    apply month_of_ordinal_in_year. lia. }
  remember ((fun m => mkdate (year (today env)) m 1) <$>
              seqZ 1 (month (today env))) as ms eqn:Hms.
  assert (length ms = Z.to_nat (month (today env))) as Hlength.
  { by rewrite Hms, length_fmap, length_seqZ. }
  destruct ms as [|first rest]; [simpl in Hlength; lia|]. cbv iota.
  split; [done|]. split; [rewrite Hlength; lia|].
  by rewrite aggregate_monthly_labels, Hms, <- list_fmap_compose.
Qed.

End Fetches.

Section FetchesRuns.

#[local] Existing Instance Sample.lib.

Lemma completion_order_is_immaterial_witness :
  prepare_context 1
    (Example3.env_with Sample.ledger ["transfer"; "withdrawal"; "deposit"])
    Sample.config =
  prepare_context 1 (Sample.env Sample.ledger 0) Sample.config.
Proof.
  apply completion_order_is_immaterial; try done.
  - symmetry. apply (Permutation_cons_append ["deposit"; "transfer"]).
  - apply (Permutation_cons_append ["withdrawal"; "deposit"]).
  - intros tx_type. unfold submitted. rewrite !elem_of_cons, elem_of_nil.
    intros [->|[->|[->|[]]]]; eexists; vm_compute; reflexivity.
Defined.

Lemma first_failed_fetch_is_raised_witness :
  prepare_context 1
    (Example3.env_with Example3.refusing ["deposit"; "transfer"; "withdrawal"])
    Sample.config = Raised (HTTPError 503) ∧
  prepare_context 1
    (Example3.env_with Example3.refusing ["transfer"; "withdrawal"; "deposit"])
    Sample.config = Raised (HTTPError 404).
Proof.
  split.
  - apply (first_failed_fetch_is_raised 1 _ Sample.config Example1.months
             [] ["transfer"; "withdrawal"] "deposit" (HTTPError 503)).
    + by vm_compute.
    + intros ty. unfold submitted. rewrite !elem_of_cons, elem_of_nil.
      intros [->|[->|[->|[]]]]; by vm_compute.
    + done.
    + by intros ty ?%elem_of_nil.
    + by vm_compute.
  - apply (first_failed_fetch_is_raised 1 _ Sample.config Example1.months
             ["transfer"] ["deposit"] "withdrawal" (HTTPError 404)).
    + by vm_compute.
    + intros ty. unfold submitted. rewrite !elem_of_cons, elem_of_nil.
      intros [->|[->|[->|[]]]]; by vm_compute.
    + done.
    + intros ty ->%list_elem_of_singleton. eexists. vm_compute. reflexivity.
    + by vm_compute.
Defined.

Lemma endless_fetch_blocks_refresh_witness :
  fetch_transactions Example3.stuck Sample.client "deposit"
    (mkdate 2024 1 1) (mkdate 2024 2 28) 100 3 = Raised (HTTPError 503) ∧
  prepare_context 3 (Sample.env Example3.stuck 0) Sample.config = Diverged.
Proof.
  split; [by vm_compute|].
  apply (endless_fetch_blocks_refresh 3 _ Sample.config Example1.months
           "transfer").
  - by vm_compute.
  - unfold submitted. rewrite !elem_of_cons. tauto.
  - by vm_compute.
Defined.

Lemma range_ending_december_9999_fails_witness :
  prepare_context 1 (Sample.env Sample.down 0) Example3.last_christmas =
    Raised ValueError.
Proof.
  apply (range_ending_december_9999_fails 1 _ Example3.last_christmas
           (mkdate 9998 3 10) (mkdate 9999 12 25)); try done.
Defined.

Lemma default_period_is_year_to_date_witness :
  ∃ ctx,
    prepare_context 1 (Sample.env Sample.ledger 0) Example3.open_config =
      Done ctx ∧
    ctx_months ctx = 3 ∧
    monthly_labels ctx = ["2024-01"; "2024-02"; "2024-03"] ∧
    date_range ctx = ("2024-01-01", "2024-03-01").
Proof.
  destruct (prepare_context 1 (Sample.env Sample.ledger 0)
              Example3.open_config) as [ctx|e|] eqn:Hrun;
    [|by vm_compute in Hrun..].
  exists ctx. split; [done|].
  destruct (default_period_is_year_to_date 1 (Sample.env Sample.ledger 0)
              Example3.open_config ctx)
    as (Hrange & Hmonths & Hlabels);
    [done|done|repeat split; by vm_compute|done|].
  by rewrite Hrange, Hmonths, Hlabels.
Defined.

End FetchesRuns.

(** ** The cache *)

Section CacheMore.

Context `{PyLib}.

(** X21: [get] runs the pipeline at most once, and it skips it exactly when
    the call is not forced and the cache holds an entry that expires strictly
    after the time of the call; an entry that expires at that very instant is
    stale. *)
Theorem refresh_runs_exactly_when_stale (self : DashboardCache) (fuel : nat)
    (env : environment) (config : AppConfig) (force_refresh : bool)
    (now : instant) :
  let result := get self fuel env config force_refresh now in
  (pipeline_runs result = 0%nat ↔
     force_refresh = false ∧
     ∃ entry, _entry self = Some entry ∧ now < expires_at entry) ∧
  (pipeline_runs result = 1%nat ↔
     force_refresh = true ∨ _entry self = None ∨
     ∃ entry, _entry self = Some entry ∧ expires_at entry ≤ now).
Proof.
  cbv zeta.
  destruct (fresh_value self force_refresh now) as [v|] eqn:Hfresh.
  - rewrite (get_fresh _ _ _ _ _ _ _ Hfresh). simpl.
    apply fresh_value_Some in Hfresh as (-> & entry & Hentry & Hlt & _).
    split; split; try done.
    + intros _. split; [done|]. by exists entry.
    + intros [|[Hnone|(entry' & Hentry' & Hle)]]; [done|congruence|].
      assert (entry' = entry) as -> by congruence. lia.
  - rewrite (get_refresh _ _ _ _ _ _ Hfresh).
    assert (pipeline_runs
              match prepare_context fuel env config with
              | Done ctx =>
                  {| returned := Done (stamp config ctx);
                     cache_after :=
                       {| _entry :=
                            Some {| value := stamp config ctx;
                                    expires_at :=
                                      now + timedelta_minutes
                                              (cache_ttl_minutes config) |} |};
                     pipeline_runs := 1 |}
              | Raised e =>
                  {| returned := Raised e; cache_after := self;
                     pipeline_runs := 1 |}
              | Diverged =>
                  {| returned := Diverged; cache_after := self;
                     pipeline_runs := 1 |}
              end = 1%nat) as ->.
    { by destruct (prepare_context fuel env config). }
    split; split; try done.
    + intros (-> & entry & Hentry & Hlt).
      assert (fresh_value self false now = Some (value entry)) as Hsome.
      { apply fresh_value_Some. split; [done|]. by exists entry. }
      congruence.
    + intros _. destruct force_refresh; [by left|right].
      destruct (_entry self) as [entry|] eqn:Hentry; [right|by left].
      exists entry. split; [done|].
      destruct (Z_lt_le_dec now (expires_at entry)) as [Hlt|Hle]; [|done].
      assert (fresh_value self false now = Some (value entry)) as Hsome.
      { apply fresh_value_Some. split; [done|]. by exists entry. }
      congruence.
Qed.

(** X22: A forced refresh that fails costs nothing: the entry that was in the
    cache is still there, and a later call that is not forced is served from
    it as long as it has not expired. *)
Theorem failed_refresh_keeps_entry (self : DashboardCache)
    (entry : CacheEntry) (fuel fuel' : nat) (env env' : environment)
    (config config' : AppConfig) (now now' : instant) (e : error) :
  _entry self = Some entry →
  prepare_context fuel env config = Raised e →
  now' < expires_at entry →
  let failed := get self fuel env config true now in
  let later := get (cache_after failed) fuel' env' config' false now' in
  returned failed = Raised e ∧
  returned later = Done (value entry) ∧
  pipeline_runs later = 0%nat ∧
  cache_after later = self.
Proof.
  intros Hentry Hraise Hlt. cbv zeta.
  rewrite (get_refresh self) by apply fresh_value_forced.
  rewrite Hraise. simpl.
  rewrite (get_fresh self _ _ _ _ _ (value entry)); [done|].
  apply fresh_value_Some. split; [done|]. by exists entry.
Qed.

(** X23: The entry that a refresh stores lives for the configured minutes,
    counted in microseconds from the time the call began: a later call that is
    not forced is served from it exactly when it comes before that instant.
    With a time to live of zero or less, no later call is ever served from it.
    *)
Theorem refreshed_entry_lifetime (self : DashboardCache) (fuel fuel' : nat)
    (env env' : environment) (config config' : AppConfig)
    (force_refresh : bool) (now now' : instant) (ctx : context) :
  fresh_value self force_refresh now = None →
  prepare_context fuel env config = Done ctx →
  let first := get self fuel env config force_refresh now in
  let later := get (cache_after first) fuel' env' config' false now' in
  (pipeline_runs later = 0%nat ↔
     now' < now + cache_ttl_minutes config * 60000000) ∧
  (pipeline_runs later = 0%nat → returned later = Done (stamp config ctx)) ∧
  (cache_ttl_minutes config ≤ 0 → now ≤ now' → pipeline_runs later = 1%nat).
Proof.
  intros Hstale Hctx. cbv zeta.
  rewrite (get_refresh self) by done. rewrite Hctx. simpl.
  set (stored := {| value := stamp config ctx;
                    expires_at :=
                      now + timedelta_minutes (cache_ttl_minutes config) |}).
  destruct (Z_lt_le_dec now' (expires_at stored)) as [Hlt|Hle].
  - rewrite (get_fresh _ _ _ _ _ _ (value stored)).
    + simpl in *. unfold timedelta_minutes in Hlt. split; [done|].
      split; [done|]. intros Httl Hnow. lia.
    + apply fresh_value_Some. split; [done|]. by exists stored.
  - assert (fresh_value {| _entry := Some stored |} false now' = None)
      as Hnone.
    { unfold fresh_value. simpl.
      destruct (Z.gtb_spec (now + timedelta_minutes (cache_ttl_minutes config))
                  now'); [simpl in Hle; lia|done]. }
    rewrite (get_refresh _ _ _ _ _ _ Hnone).
    simpl in Hle. unfold timedelta_minutes in Hle.
    destruct (prepare_context fuel' env' config'); simpl;
      (split; [split; [done|lia]|]); split; done.
Qed.

Lemma get_keeps_stamps (self : DashboardCache) (fuel : nat)
    (env : environment) (config : AppConfig) (force_refresh : bool)
    (now : instant) :
  well_stamped self →
  let result := get self fuel env config force_refresh now in
  well_stamped (cache_after result) ∧
  ∀ v, returned result = Done v → stamped v.
Proof.
  intros Hself. cbv zeta.
  destruct (fresh_value self force_refresh now) as [v|] eqn:Hfresh.
  - rewrite (get_fresh _ _ _ _ _ _ _ Hfresh). simpl. split; [done|].
    intros v' [= <-].
    apply fresh_value_Some in Hfresh as (_ & entry & Hentry & _ & ->).
    by apply Hself.
  - rewrite (get_refresh _ _ _ _ _ _ Hfresh).
    destruct (prepare_context fuel env config) as [ctx|e|]; simpl;
      [|done..].
    assert (stamped (stamp config ctx)) as Hstamped.
    { split; [by eexists|done]. }
    split.
    + by intros entry [= <-].
    + by intros v [= <-].
Qed.

(** X24: Whatever the requests are, every context that is served from a cache
    that started empty carries the time to live and the display form of its
    time stamp, the two entries that [get] adds after the pipeline. *)
Theorem served_contexts_are_stamped (calls : list call) (result : get_result)
    (v : context) :
  result ∈ get_all new_cache calls →
  returned result = Done v →
  stamped v.
Proof.
  assert (∀ self, well_stamped self →
            result ∈ get_all self calls → returned result = Done v →
            stamped v) as Hall.
  { induction calls as [|c calls IH]; intros self Hself; simpl.
    - by intros ?%elem_of_nil.
    - destruct (get_keeps_stamps self (call_fuel c) (call_env c)
                  (call_config c) (call_force_refresh c) (call_now c) Hself)
        as [Hafter Hreturned].
      intros [->|Hin]%elem_of_cons.
      + apply Hreturned.
      + by apply (IH _ Hafter). }
  apply Hall. by intros entry.
Qed.

End CacheMore.

Section CacheRuns.

#[local] Existing Instance Sample.lib.

Lemma refresh_runs_exactly_when_stale_witness :
  pipeline_runs
    (get (Example2.cache 100) 1 (Sample.env Sample.ledger 7) Sample.config
       false 100) = 1%nat ∧
  pipeline_runs
    (get (Example2.cache 100) 1 (Sample.env Sample.ledger 7) Sample.config
       false 99) = 0%nat.
Proof.
  split.
  - apply (refresh_runs_exactly_when_stale (Example2.cache 100) 1
             (Sample.env Sample.ledger 7) Sample.config false 100).
    right. right. eexists. split; [reflexivity|]. simpl. lia.
  - apply (refresh_runs_exactly_when_stale (Example2.cache 100) 1
             (Sample.env Sample.ledger 7) Sample.config false 99).
    split; [done|]. eexists. split; [reflexivity|]. simpl. lia.
Defined.

Lemma failed_refresh_keeps_entry_witness :
  let failed :=
    get (Example2.cache 100) 1 (Sample.env Sample.down 7) Sample.config
      true 6 in
  let later :=
    get (cache_after failed) 1 (Sample.env Sample.down 51) Sample.config
      false 50 in
  returned failed = Raised (HTTPError 503) ∧
  returned later = Done Example2.snapshot ∧
  pipeline_runs later = 0%nat.
Proof.
  destruct (failed_refresh_keeps_entry (Example2.cache 100)
              {| value := Example2.snapshot; expires_at := 100 |} 1 1
              (Sample.env Sample.down 7) (Sample.env Sample.down 51)
              Sample.config Sample.config 6 50 (HTTPError 503))
    as (Hfailed & Hlater & Hruns & _).
  - done.
  - by vm_compute.
  - simpl. lia.
  - split; [exact Hfailed|]. split; [exact Hlater|exact Hruns].
Defined.

Lemma refreshed_entry_lifetime_witness :
  let first := get new_cache 1 (Sample.env Sample.ledger 0) Sample.config
                 false 0 in
  pipeline_runs
    (get (cache_after first) 1 (Sample.env Sample.down 0) Sample.config
       false 599999999) = 0%nat ∧
  pipeline_runs
    (get (cache_after first) 1 (Sample.env Sample.down 0) Sample.config
       false 600000000) ≠ 0%nat.
Proof.
  destruct (prepare_context 1 (Sample.env Sample.ledger 0) Sample.config)
    as [ctx|e|] eqn:Hrun; [|by vm_compute in Hrun..].
  destruct (refreshed_entry_lifetime new_cache 1 1 (Sample.env Sample.ledger 0)
              (Sample.env Sample.down 0) Sample.config Sample.config false
              0 599999999 ctx eq_refl Hrun) as ([_ Hbefore] & _ & _).
  destruct (refreshed_entry_lifetime new_cache 1 1 (Sample.env Sample.ledger 0)
              (Sample.env Sample.down 0) Sample.config Sample.config false
              0 600000000 ctx eq_refl Hrun) as ([Hafter _] & _ & _).
  cbv zeta. split.
  - apply Hbefore. unfold Sample.config. simpl. lia.
  - intros Hruns%Hafter. unfold Sample.config in Hruns. simpl in Hruns. lia.
Defined.

Lemma served_contexts_are_stamped_witness :
  last_updated_display Example2.snapshot = Some "1970-01-01 00:00 UTC" ∧
  stamped Example2.snapshot.
Proof.
  split; [by vm_compute|].
  apply (served_contexts_are_stamped
           [Example3.first_visit; Example3.later_visit]
           (get new_cache 1 (Sample.env Sample.ledger 0) Sample.config
              false 0)).
  - apply list_elem_of_here.
  - by vm_compute.
Defined.

End CacheRuns.

(** ** [load_config] *)

Lemma bind_Loaded {A B} (m : loading A) (f : A → loading B) (b : B) :
  (m ≫= f) = Loaded b ↔ ∃ a, m = Loaded a ∧ f a = Loaded b.
Proof.
  destruct m as [a| |]; simpl; split; try done.
  - intros Hb. by exists a.
  - by intros (a' & [= <-] & Hb).
  - by intros (a' & ? & _).
  - by intros (a' & ? & _).
Qed.

Lemma date_lt_false (a b : date) : date_lt a b = false → date_le b a = true.
Proof.
  unfold date_lt, date_le.
  destruct (Z.ltb_spec (year a) (year b)), (Z.eqb_spec (year a) (year b)),
    (Z.ltb_spec (month a) (month b)), (Z.eqb_spec (month a) (month b)),
    (Z.ltb_spec (day a) (day b)), (Z.ltb_spec (year b) (year a)),
    (Z.eqb_spec (year b) (year a)), (Z.ltb_spec (month b) (month a)),
    (Z.eqb_spec (month b) (month a)), (Z.leb_spec (day b) (day a));
    simpl; try done; lia.
Qed.

Lemma date_le_ordinal (a b : date) :
  date_le a b = true → month_ordinal a ≤ month_ordinal b ∨ 12 < month a ∨
                       month b < 1.
Proof.
  unfold date_le, month_ordinal.
  destruct (Z.ltb_spec (year a) (year b)), (Z.eqb_spec (year a) (year b)),
    (Z.ltb_spec (month a) (month b)), (Z.eqb_spec (month a) (month b));
    simpl; try done; lia.
Qed.

Lemma rstrip_slash_no_trailing (s prefix : string) :
  rstrip_slash s ≠ prefix +:+ "/".
Proof.
  revert prefix. induction s as [|c rest IH]; intros prefix; simpl.
  - by destruct prefix.
  - destruct (rstrip_slash rest) as [|c' stripped].
    + case_decide as Hc.
      * by destruct prefix.
      * destruct prefix as [|c0 prefix]; simpl.
        -- by intros [= ->].
        -- intros [= _ Htail]. by destruct prefix.
    + destruct prefix as [|c0 prefix]; simpl; [done|].
      intros [= _ Htail]. by apply (IH prefix).
Qed.

Lemma sub_months_of_ordinal (d : date) (k : Z) :
  in_year_range d → 0 ≤ k →
  sub_months (month_start d) k =
    if month_ordinal d - k <? first_ordinal then Uncaught ValueError
    else Loaded (month_of_ordinal (month_ordinal d - k)).
Proof.
  unfold sub_months, month_start, month_of_ordinal, month_ordinal,
    in_year_range, first_ordinal, MINYEAR, MAXYEAR.
  intros [Hyear Hmonth] Hk. cbn [year month day].
  rewrite Z.min_r by apply days_in_month_pos.
  destruct (Z.ltb_spec (year d * 12 + month d - k) (1 * 12 + 1));
    destruct (Z.ltb_spec (month d - k mod 12) 1);
    repeat match goal with
    | |- context [?a <=? ?b] => destruct (Z.leb_spec a b)
    end; cbn [andb];
    first [ done
          | do 2 f_equal; Z.div_mod_to_equations; lia
          | exfalso; Z.div_mod_to_equations; lia ].
Qed.

Section ConfigFile.

Context `{PyLib}.

Variable fromisoformat : string → option date.

Hypothesis fromisoformat_valid :
  ∀ text d, fromisoformat text = Some d → valid_date d.

Lemma period_date_valid value message d :
  period_date fromisoformat value message = Loaded (Some d) → valid_date d.
Proof.
  unfold period_date. destruct (dict_get value) as [text|]; [|done].
  case_decide; [done|].
  destruct (fromisoformat text) as [d'|] eqn:Hd; [|done].
  intros [= <-]. by apply (fromisoformat_valid text).
Qed.

Lemma period_date_blank value message :
  blank value → period_date fromisoformat value message = Loaded None.
Proof. unfold period_date. by intros [-> | [-> | ->]]. Qed.

(** What a configuration that [load_config] returns is made of. *)
Lemma load_config_Loaded file today config :
  load_config fromisoformat file today = Loaded config →
  ∃ raw url token months members start_given end_given start ttl,
    file = Some raw ∧
    raw_api_base_url raw = Some url ∧
    raw_api_token raw = Some token ∧
    months_of (raw_months raw) = Loaded months ∧
    period_members (raw_period raw) = Loaded members ∧
    period_date fromisoformat members.1
      "`period.start` must be in YYYY-MM-DD format" = Loaded start_given ∧
    period_date fromisoformat members.2
      "`period.end` must be in YYYY-MM-DD format" = Loaded end_given ∧
    match start_given with
    | Some start => Loaded start
    | None => start_of_period months (default today end_given)
    end = Loaded start ∧
    date_lt (default today end_given) start = false ∧
    cache_ttl_of (raw_cache_ttl_minutes raw) = Loaded ttl ∧
    config = {| api_base_url := rstrip_slash url;
                api_token := token;
                cache_ttl_minutes := ttl;
                months := months;
                period_start := Some start;
                period_end := Some (default today end_given) |}.
Proof.
  unfold load_config. destruct file as [raw|]; [|done].
  intros (url & Hurl & Hload)%bind_Loaded.
  apply bind_Loaded in Hload as (token & Htoken & Hload).
  apply bind_Loaded in Hload as (months & Hmonths & Hload).
  apply bind_Loaded in Hload as (members & Hmembers & Hload).
  apply bind_Loaded in Hload as (start_given & Hstart_given & Hload).
  apply bind_Loaded in Hload as (end_given & Hend_given & Hload).
  apply bind_Loaded in Hload as (start & Hstart & Hload).
  destruct (date_lt (default today end_given) start) eqn:Hlt; [done|].
  apply bind_Loaded in Hload as (ttl & Httl & [= <-]).
  exists raw, url, token, months, members, start_given, end_given, start, ttl.
  unfold required in Hurl, Htoken.
  destruct (raw_api_base_url raw); [|done].
  destruct (raw_api_token raw); [|done].
  injection Hurl as ->. injection Htoken as ->.
  repeat (split; [done|]). done.
Qed.

Lemma start_of_period_valid months reference_date start :
  valid_date reference_date →
  (∀ n, months = Some n → 0 < n) →
  start_of_period months reference_date = Loaded start →
  valid_date start.
Proof.
  intros Hreference Hpositive. unfold start_of_period.
  pose proof (valid_date_in_year_range _ Hreference) as Hrange.
  destruct months as [n|].
  - rewrite sub_months_of_ordinal by (done || (specialize (Hpositive n eq_refl); lia)).
    destruct (Z.ltb_spec (month_ordinal reference_date - (n - 1))
                first_ordinal); [done|].
    intros [= <-].
    specialize (Hpositive n eq_refl).
    pose proof (in_year_range_ordinal _ Hrange) as Hordinal.
    destruct (in_year_range_of_ordinal
                (month_ordinal reference_date - (n - 1))) as [Hy Hm]; [lia|].
    split; [done|]. split; [done|]. simpl.
    pose proof (days_in_month_pos
                  ((month_ordinal reference_date - (n - 1) - 1) / 12)
                  ((month_ordinal reference_date - (n - 1) - 1) mod 12 + 1)).
    lia.
  - intros [= <-]. destruct Hreference as (Hy & Hm & Hd).
    split; [done|]. split; simpl; [lia|]. unfold days_in_month. simpl. lia.
Qed.

Lemma months_of_positive entry months :
  months_of entry = Loaded months → ∀ n, months = Some n → 0 < n.
Proof.
  unfold months_of. destruct (dict_get entry) as [n|]; [|by intros [= <-]].
  destruct (Z.leb_spec n 0); [done|]. intros [= <-] n' [= <-]. lia.
Qed.

(** X25: A configuration that [load_config] returns has a time to live and a
    number of months that are positive, both ends of the period, which are
    valid dates with the start not after the end, and an address that does not
    end in a slash. *)
Theorem loaded_config_is_well_formed (file : option raw_config) (today : date)
    (config : AppConfig) :
  valid_date today →
  load_config fromisoformat file today = Loaded config →
  0 < cache_ttl_minutes config ∧
  (∀ n, months config = Some n → 0 < n) ∧
  (∃ start end_,
     period_start config = Some start ∧ period_end config = Some end_ ∧
     valid_date start ∧ valid_date end_ ∧ date_le start end_ = true) ∧
  ∀ prefix, api_base_url config ≠ prefix +:+ "/".
Proof.
  intros Htoday
    (raw & url & token & months & members & start_given & end_given & start &
     ttl & _ & _ & _ & Hmonths & _ & Hstart_given & Hend_given & Hstart &
     Hlt & Httl & ->)%load_config_Loaded.
  simpl.
  assert (valid_date (default today end_given)) as Hend.
  { destruct end_given as [end_|]; [|done].
    by apply period_date_valid in Hend_given. }
  split; [|split; [|split]].
  - unfold cache_ttl_of in Httl.
    destruct (dict_get_default _ 10) as [n|]; [|done].
    destruct (Z.leb_spec n 0); [done|]. injection Httl as <-. lia.
  - by apply (months_of_positive (raw_months raw)).
  - exists start, (default today end_given).
    split; [done|]. split; [done|]. split; [|split; [done|]].
    + destruct start_given as [start'|].
      * injection Hstart as <-. by apply period_date_valid in Hstart_given.
      * apply (start_of_period_valid months (default today end_given));
          [done| |done].
        by apply (months_of_positive (raw_months raw)).
    + by apply date_lt_false.
  - apply rstrip_slash_no_trailing.
Qed.

(** The number of months of a context whose configuration has both ends of
    its period, the start not after the end. *)
Lemma loaded_months fuel env config ctx start end_ :
  period_start config = Some start → period_end config = Some end_ →
  in_year_range start → in_year_range end_ →
  month_ordinal start ≤ month_ordinal end_ →
  prepare_context fuel env config = Done ctx →
  ctx_months ctx = month_count start end_.
Proof.
  intros Hstart Hend Hrange Hrange' Hle Hctx.
  apply prepare_context_Done in Hctx
    as (months & transactions & w & d & t & Hmonths & _ & _ & _ & _ & _ & ->).
  unfold context_months, start_date_of, end_date_of in Hmonths.
  rewrite Hstart, Hend in Hmonths. simpl in Hmonths.
  apply bind_Done in Hmonths as (months0 & Hseq & [= <-]).
  rewrite month_sequence_spec in Hseq by done.
  destruct (Z.ltb_spec (month_ordinal end_) (month_ordinal start)); [lia|].
  destruct (Z.eqb_spec (month_ordinal end_) last_ordinal); [done|].
  injection Hseq as <-. unfold month_count. cbn [ctx_months].
  rewrite (seqZ_cons (month_ordinal start)) by lia. simpl.
  rewrite length_fmap, length_seqZ. lia.
Qed.

(** X26: A file that asks for the last [n] months and gives no start gets a
    period that begins on the first day of the month [n - 1] months before the
    month of the end, and every context made from that configuration has
    exactly [n] months. *)
Theorem trailing_window_has_n_months (raw : raw_config) (today : date)
    (config : AppConfig) (n : Z) (members : member string * member string) :
  valid_date today →
  load_config fromisoformat (Some raw) today = Loaded config →
  raw_months raw = Val n →
  period_members (raw_period raw) = Loaded members →
  blank members.1 →
  ∃ start end_,
    period_start config = Some start ∧ period_end config = Some end_ ∧
    start = month_of_ordinal (month_ordinal end_ - (n - 1)) ∧
    month_count start end_ = n ∧
    ∀ fuel env ctx,
      prepare_context fuel env config = Done ctx → ctx_months ctx = n.
Proof.
  intros Htoday Hload Hn Hmembers Hblank.
  apply load_config_Loaded in Hload
    as (raw' & url & token & months & members' & start_given & end_given &
        start & ttl & [= <-] & _ & _ & Hmonths & Hmembers' & Hstart_given &
        Hend_given & Hstart & _ & _ & ->).
  assert (members' = members) as -> by congruence.
  rewrite period_date_blank in Hstart_given by done.
  injection Hstart_given as <-.
  assert (valid_date (default today end_given)) as Hend.
  { destruct end_given as [end_|]; [|done].
    by apply period_date_valid in Hend_given. }
  pose proof (valid_date_in_year_range _ Hend) as Hrange.
  pose proof (in_year_range_ordinal _ Hrange) as Hordinal.
  unfold months_of in Hmonths. rewrite Hn in Hmonths. simpl in Hmonths.
  destruct (Z.leb_spec n 0); [done|]. injection Hmonths as <-.
  unfold start_of_period in Hstart.
  rewrite sub_months_of_ordinal in Hstart by (done || lia).
  destruct (Z.ltb_spec (month_ordinal (default today end_given) - (n - 1))
              first_ordinal); [done|].
  injection Hstart as <-.
  exists (month_of_ordinal (month_ordinal (default today end_given) - (n - 1))),
    (default today end_given).
  assert (month_count
            (month_of_ordinal
               (month_ordinal (default today end_given) - (n - 1)))
            (default today end_given) = n) as Hcount.
  { unfold month_count. rewrite month_ordinal_of_ordinal. lia. }
  split; [done|]. split; [done|]. split; [done|]. split; [done|].
  assert (in_year_range
            (month_of_ordinal
               (month_ordinal (default today end_given) - (n - 1))))
    as Hrange'.
  { apply in_year_range_of_ordinal. lia. }
  assert (month_ordinal
            (month_of_ordinal
               (month_ordinal (default today end_given) - (n - 1))) ≤
          month_ordinal (default today end_given)) as Hle.
  { rewrite month_ordinal_of_ordinal. lia. }
  intros fuel env ctx Hctx.
  match type of Hctx with
  | prepare_context _ _ ?config = _ =>
      by rewrite (loaded_months fuel env config ctx _ _ eq_refl eq_refl
                    Hrange' Hrange Hle Hctx)
  end.
Qed.

(** X27: A file that gives neither a number of months nor a start gets a
    period that begins on the first of January of the year of its end, which
    is the configured end and not today when the file gives one; a context
    made from that configuration has one month for each month of that year up
    to the month of the end. *)
Theorem default_start_is_january_of_end_year (raw : raw_config) (today : date)
    (config : AppConfig) (members : member string * member string) :
  valid_date today →
  load_config fromisoformat (Some raw) today = Loaded config →
  dict_get (raw_months raw) = None →
  period_members (raw_period raw) = Loaded members →
  blank members.1 →
  ∃ end_,
    period_end config = Some end_ ∧
    period_start config = Some (mkdate (year end_) 1 1) ∧
    (blank members.2 → end_ = today) ∧
    ∀ fuel env ctx,
      prepare_context fuel env config = Done ctx →
      ctx_months ctx = month end_.
Proof.
  intros Htoday Hload Hn Hmembers Hblank.
  apply load_config_Loaded in Hload
    as (raw' & url & token & months & members' & start_given & end_given &
        start & ttl & [= <-] & _ & _ & Hmonths & Hmembers' & Hstart_given &
        Hend_given & Hstart & _ & _ & ->).
  assert (members' = members) as -> by congruence.
  rewrite period_date_blank in Hstart_given by done.
  injection Hstart_given as <-.
  assert (valid_date (default today end_given)) as Hend.
  { destruct end_given as [end_|]; [|done].
    by apply period_date_valid in Hend_given. }
  pose proof (valid_date_in_year_range _ Hend) as Hrange.
  unfold months_of in Hmonths. rewrite Hn in Hmonths.
  injection Hmonths as <-. injection Hstart as <-.
  exists (default today end_given).
  split; [done|]. split; [done|]. split.
  - intros Hblank'. rewrite period_date_blank in Hend_given by done.
    by injection Hend_given as <-.
  - assert (in_year_range (mkdate (year (default today end_given)) 1 1))
      as Hrange'.
    { destruct Hrange. split; [done|]. simpl. lia. }
    assert (month_ordinal (mkdate (year (default today end_given)) 1 1) ≤
            month_ordinal (default today end_given)) as Hle.
    { destruct Hrange. unfold month_ordinal. simpl. lia. }
    intros fuel env ctx Hctx.
    match type of Hctx with
    | prepare_context _ _ ?config = _ =>
        rewrite (loaded_months fuel env config ctx _ _ eq_refl eq_refl
                   Hrange' Hrange Hle Hctx)
    end.
    unfold month_count, month_ordinal. simpl. lia.
Qed.

(** X28: A number of months that reaches back beyond January of the year 1 is
    not reported as a configuration error: the subtraction raises
    [ValueError], which [load_config] lets through. *)
Theorem window_before_year_one_is_uncaught (raw : raw_config) (today : date)
    (url token : string) (n : Z) (members : member string * member string)
    (end_given : option date) :
  raw_api_base_url raw = Some url →
  raw_api_token raw = Some token →
  raw_months raw = Val n → 0 < n →
  period_members (raw_period raw) = Loaded members →
  blank members.1 →
  period_date fromisoformat members.2
    "`period.end` must be in YYYY-MM-DD format" = Loaded end_given →
  in_year_range (default today end_given) →
  month_ordinal (default today end_given) - (n - 1) < first_ordinal →
  load_config fromisoformat (Some raw) today = Uncaught ValueError.
Proof.
  intros Hurl Htoken Hn Hpositive Hmembers Hblank Hend Hrange Hbefore.
  unfold load_config. rewrite Hurl, Htoken. simpl.
  unfold months_of. rewrite Hn. simpl.
  destruct (Z.leb_spec n 0); [lia|]. simpl.
  rewrite Hmembers. simpl.
  rewrite (period_date_blank members.1) by done. simpl.
  rewrite Hend. simpl.
  rewrite sub_months_of_ordinal by (done || lia).
  by destruct (Z.ltb_spec (month_ordinal (default today end_given) - (n - 1))
                 first_ordinal); [|lia].
Qed.

End ConfigFile.

Lemma sample_fromisoformat_valid (text : string) (d : date) :
  Example3.fromisoformat text = Some d → valid_date d.
Proof.
  unfold Example3.fromisoformat.
  intros ([y s1] & _ & Hrest)%bind_Some. cbv beta iota in Hrest.
  apply bind_Some in Hrest as (s2 & _ & Hrest).
  apply bind_Some in Hrest as ([m s3] & _ & Hrest). cbv beta iota in Hrest.
  apply bind_Some in Hrest as (s4 & _ & Hrest).
  apply bind_Some in Hrest as ([dd s5] & _ & Hrest). cbv beta iota in Hrest.
  destruct (bool_decide (s5 = "")); [|done]. simpl in Hrest.
  destruct (Z.leb_spec MINYEAR y); [|done].
  destruct (Z.leb_spec y MAXYEAR); [|done].
  destruct (Z.leb_spec 1 m); [|done].
  destruct (Z.leb_spec m 12); [|done].
  destruct (Z.leb_spec 1 dd); [|done].
  destruct (Z.leb_spec dd (days_in_month y m)); [|done].
  simpl in Hrest. injection Hrest as <-. by repeat split.
Qed.

Section ConfigRuns.

#[local] Existing Instance Sample.lib.

Lemma loaded_config_is_well_formed_witness :
  ∃ config,
    load_config Example3.fromisoformat (Some Example3.three_months)
      (mkdate 2024 3 1) = Loaded config ∧
    api_base_url config = "https://ledger.example" ∧
    0 < cache_ttl_minutes config ∧
    ∃ start end_,
      period_start config = Some start ∧ period_end config = Some end_ ∧
      date_le start end_ = true.
Proof.
  destruct (load_config Example3.fromisoformat (Some Example3.three_months)
              (mkdate 2024 3 1)) as [config| |] eqn:Hload;
    [|by vm_compute in Hload..].
  exists config. split; [done|].
  destruct (loaded_config_is_well_formed Example3.fromisoformat
              sample_fromisoformat_valid (Some Example3.three_months)
              (mkdate 2024 3 1) config)
    as (Httl & _ & (start & end_ & Hstart & Hend & _ & _ & Hle) & _);
    [repeat split; by vm_compute|done|].
  split; [by vm_compute in Hload; injection Hload as <-|].
  split; [done|]. by exists start, end_.
Defined.

Lemma trailing_window_has_n_months_witness :
  ∃ config,
    load_config Example3.fromisoformat (Some Example3.three_months)
      (mkdate 2024 3 1) = Loaded config ∧
    period_start config = Some (mkdate 2023 12 1) ∧
    period_end config = Some (mkdate 2024 2 28) ∧
    ∀ ctx,
      prepare_context 1 (Sample.env Sample.ledger 0) config = Done ctx →
      ctx_months ctx = 3.
Proof.
  destruct (load_config Example3.fromisoformat (Some Example3.three_months)
              (mkdate 2024 3 1)) as [config| |] eqn:Hload;
    [|by vm_compute in Hload..].
  exists config. split; [done|].
  destruct (trailing_window_has_n_months Example3.fromisoformat
              sample_fromisoformat_valid Example3.three_months
              (mkdate 2024 3 1) config 3 (Null, Val "2024-02-28"))
    as (start & end_ & Hstart & Hend & -> & _ & Hmonths);
    [repeat split; by vm_compute|done|done|done|by right; left|].
  vm_compute in Hload. injection Hload as <-.
  injection Hend as <-.
  split; [done|]. split; [done|]. intros ctx. apply Hmonths.
Defined.

Lemma default_start_is_january_of_end_year_witness :
  ∃ config,
    load_config Example3.fromisoformat (Some Example3.until_may)
      (mkdate 2024 3 1) = Loaded config ∧
    period_start config = Some (mkdate 2023 1 1) ∧
    ∀ ctx,
      prepare_context 1 (Sample.env Sample.ledger 0) config = Done ctx →
      ctx_months ctx = 5.
Proof.
  destruct (load_config Example3.fromisoformat (Some Example3.until_may)
              (mkdate 2024 3 1)) as [config| |] eqn:Hload;
    [|by vm_compute in Hload..].
  exists config. split; [done|].
  destruct (default_start_is_january_of_end_year Example3.fromisoformat
              sample_fromisoformat_valid Example3.until_may
              (mkdate 2024 3 1) config (Missing, Val "2023-05-20"))
    as (end_ & Hend & Hstart & _ & Hmonths);
    [repeat split; by vm_compute|done|done|done|by left|].
  vm_compute in Hload. injection Hload as <-.
  injection Hend as <-.
  split; [done|]. intros ctx. apply Hmonths.
Defined.

Lemma window_before_year_one_is_uncaught_witness :
  load_config Example3.fromisoformat (Some Example3.too_many_months)
    (mkdate 2024 3 1) = Uncaught ValueError.
Proof.
  apply (window_before_year_one_is_uncaught Example3.fromisoformat
           Example3.too_many_months (mkdate 2024 3 1)
           "https://ledger.example" "secret" 24280 (Missing, Missing) None);
    try done.
  by left.
Defined.

End ConfigRuns.

(** ** The route [/] *)

Lemma bind_Uncaught {A B} (m : loading A) (f : A → loading B) (e : error) :
  (m ≫= f) = Uncaught e ↔
    m = Uncaught e ∨ ∃ a, m = Loaded a ∧ f a = Uncaught e.
Proof.
  destruct m as [a| |]; simpl; split; try done.
  - intros He. right. by exists a.
  - by intros [|(a' & [= <-] & He)].
  - by intros [|(a' & ? & _)].
  - intros [= ->]. by left.
  - by intros [[= ->]|(a' & ? & _)].
Qed.

(** The exceptions that [load_config] lets through. *)
Lemma load_config_Uncaught fromisoformat file today e :
  load_config fromisoformat file today = Uncaught e →
  e = ValueError ∨ e = TypeError.
Proof.
  unfold load_config. destruct file as [raw|]; [|done].
  intros [Hurl|(url & _ & Hload)]%bind_Uncaught.
  { unfold required in Hurl. by destruct (raw_api_base_url raw). }
  apply bind_Uncaught in Hload as [Htoken|(token & _ & Hload)].
  { unfold required in Htoken. by destruct (raw_api_token raw). }
  apply bind_Uncaught in Hload as [Hmonths|(months & _ & Hload)].
  { unfold months_of in Hmonths.
    destruct (dict_get (raw_months raw)) as [n|]; [|done].
    by destruct (n <=? 0). }
  apply bind_Uncaught in Hload as [Hmembers|(members & _ & Hload)].
  { unfold period_members in Hmembers.
    by destruct (dict_get (raw_period raw)) as [[? ?|[]]|]. }
  assert (∀ value message,
            period_date fromisoformat value message ≠ Uncaught e) as Hdate.
  { intros value message. unfold period_date.
    destruct (dict_get value) as [text|]; [|done].
    case_decide; [done|]. by destruct (fromisoformat text). }
  apply bind_Uncaught in Hload as [Hstart|(start_given & _ & Hload)].
  { by apply Hdate in Hstart. }
  apply bind_Uncaught in Hload as [Hend|(end_given & _ & Hload)].
  { by apply Hdate in Hend. }
  apply bind_Uncaught in Hload as [Hstart|(start & _ & Hload)].
  { destruct start_given as [?|]; [done|].
    unfold start_of_period, sub_months in Hstart.
    destruct months as [n|]; [|done].
    destruct (_ && _); [done|]. injection Hstart as <-. by left. }
  destruct (date_lt _ _); [done|].
  apply bind_Uncaught in Hload as [Httl|(ttl & _ & ?)]; [|done].
  unfold cache_ttl_of in Httl.
  destruct (dict_get_default _ 10) as [n|].
  - by destruct (n <=? 0).
  - injection Httl as <-. by right.
Qed.

Section RouteMore.

Context `{PyLib}.

Variable fromisoformat : string → option date.

(** X29: The configuration file is read before the cache is asked, on every
    request: while the file is broken, the reply is the configuration error
    page, also when the cache holds a fresh entry, and neither the cache nor
    the ledger is touched; once the file is in order again, the entry is
    served as before. *)
Theorem config_is_read_before_cache (cache : DashboardCache)
    (entry : CacheEntry) (file file' : option raw_config)
    (arg arg' : option string) (fuel fuel' : nat) (env env' : environment)
    (now now' : instant) (message : string) (config : AppConfig) :
  _entry cache = Some entry →
  load_config fromisoformat file (today env) = ConfigError message →
  load_config fromisoformat file' (today env') = Loaded config →
  wants_refresh arg' = false →
  now' < expires_at entry →
  let first := index fromisoformat cache file arg fuel env now in
  let second :=
    index fromisoformat (cache_left first) file' arg' fuel' env' now' in
  reply_of first = ConfigErrorPage message ∧
  cache_left first = cache ∧
  refreshes first = 0%nat ∧
  reply_of second = Page (value entry) ∧
  refreshes second = 0%nat.
Proof.
  intros Hentry Hbroken Hloaded Hrefresh Hlt. cbv zeta.
  unfold index. rewrite Hbroken. simpl. rewrite Hloaded, Hrefresh.
  rewrite (get_fresh cache _ _ _ _ _ (value entry)); [done|].
  apply fresh_value_Some. split; [done|]. by exists entry.
Qed.

(** X30: The reply is the bad gateway page exactly when the configuration
    loads, the pipeline runs and it raises an [HTTPError], whose status the
    page reports. No other failure of a fetch, a refused connection or a
    timeout among them, has a handler. *)
Theorem bad_gateway_only_for_http_errors (cache : DashboardCache)
    (file : option raw_config) (arg : option string) (fuel : nat)
    (env : environment) (now : instant) (status : Z) :
  reply_of (index fromisoformat cache file arg fuel env now) =
    BadGatewayPage status ↔
  ∃ config,
    load_config fromisoformat file (today env) = Loaded config ∧
    fresh_value cache (wants_refresh arg) now = None ∧
    prepare_context fuel env config = Raised (HTTPError status).
Proof.
  unfold index.
  destruct (load_config fromisoformat file (today env))
    as [config|message|e] eqn:Hload; simpl.
  - destruct (fresh_value cache (wants_refresh arg) now) as [v|] eqn:Hfresh.
    + rewrite (get_fresh _ _ _ _ _ _ _ Hfresh). simpl. split; [done|].
      by intros (config' & _ & ? & _).
    + rewrite (get_refresh _ _ _ _ _ _ Hfresh).
      destruct (prepare_context fuel env config) as [ctx|e|] eqn:Hctx; simpl.
      * split; [done|]. intros (config' & [= <-] & _ & Hraise). congruence.
      * split.
        -- destruct e; try done. intros [= ->]. by exists config.
        -- intros (config' & [= <-] & _ & Hraise).
           rewrite Hctx in Hraise. by injection Hraise as ->.
      * split; [done|]. intros (config' & [= <-] & _ & Hraise). congruence.
  - split; [done|]. by intros (config' & ? & _).
  - split; [|by intros (config' & ? & _)].
    apply load_config_Uncaught in Hload as [-> | ->]; done.
Qed.

End RouteMore.

Section RouteRuns.

#[local] Existing Instance Sample.lib.

Lemma config_is_read_before_cache_witness :
  let first :=
    index Example3.fromisoformat (Example2.cache 100) None (Some "1") 1
      (Sample.env Sample.ledger 7) 6 in
  let second :=
    index Example3.fromisoformat (cache_left first)
      (Some Example3.three_months) (Some "0") 1 (Sample.env Sample.down 51)
      50 in
  (∃ message, reply_of first = ConfigErrorPage message) ∧
  refreshes first = 0%nat ∧
  reply_of second = Page Example2.snapshot ∧
  refreshes second = 0%nat.
Proof.
  destruct (load_config Example3.fromisoformat (Some Example3.three_months)
              (mkdate 2024 3 1)) as [config| |] eqn:Hload;
    [|by vm_compute in Hload..].
  destruct (config_is_read_before_cache Example3.fromisoformat
              (Example2.cache 100)
              {| value := Example2.snapshot; expires_at := 100 |}
              None (Some Example3.three_months) (Some "1") (Some "0") 1 1
              (Sample.env Sample.ledger 7) (Sample.env Sample.down 51) 6 50
              _ config eq_refl eq_refl Hload eq_refl)
    as (Hfirst & _ & Hruns & Hsecond & Hruns').
  - simpl. lia.
  - cbv zeta. split; [by eexists|]. split; [exact Hruns|].
    split; [exact Hsecond|exact Hruns'].
Defined.

Lemma bad_gateway_only_for_http_errors_witness :
  reply_of
    (index Example3.fromisoformat new_cache (Some Example3.three_months) None
       1 (Sample.env Sample.down 0) 0) = BadGatewayPage 503.
Proof.
  apply (bad_gateway_only_for_http_errors Example3.fromisoformat new_cache
           (Some Example3.three_months) None 1 (Sample.env Sample.down 0) 0
           503).
  eexists. split; [vm_compute; reflexivity|]. split; [done|]. by vm_compute.
Defined.

End RouteRuns.
